(** * Deadline Guardian Agent: risk classification and cascade analysis

    A shallow embedding of the analysis core of [app.py]
    ([calculate_risk_level], [format_time_remaining],
    [build_dependency_graph], [analyze_cascading_risks] and the per-task
    loop of [handle_request]) together with the properties of the
    specification that concern it.

    Conventions of the embedding:
    - a Python value is a [pyval]: [None], a [str], an [int], a [list],
      a [bytes] or a [dict]; a task document is a dictionary from field
      names to values ([gmap string pyval]);
    - a character is a code point below 256, a [str] is a [string];
    - an uncaught Python exception is the [Raise] case of [result];
    - [datetime.now()] is the explicit parameter [now];
    - the dictionaries built by the analysis keep their insertion order
      ([pydict]), as Python dictionaries do. *)

From Stdlib Require Import ZArith NArith Ascii String List Lia Bool.
From stdpp Require Import base list option strings gmap pretty.

Local Open Scope Z_scope.

(** ** Python values and exceptions *)

#[warnings="-register-all"] Inductive pyval : Type :=
  | PyNone
  | PyStr (s : string)
  | PyInt (z : Z)
  | PyList (l : list pyval)
  | PyBytes (b : string)
  | PyDict (d : list (string * pyval)).

Inductive exn : Type := TypeError | AttributeError.

Inductive result (A : Type) : Type :=
  | Ok (a : A)
  | Raise (e : exn).
Arguments Ok {A} a.
Arguments Raise {A} e.

Global Instance result_bind : MBind result := fun A B f m =>
  match m with
  | Ok a => f a
  | Raise e => Raise e
  end.

Global Instance result_ret : MRet result := fun A a => Ok a.

Global Instance result_fmap : FMap result := fun A B f m =>
  match m with
  | Ok a => Ok (f a)
  | Raise e => Raise e
  end.

(** Truth value of an object in a condition ([if depends_on:]). *)
Definition truthy (v : pyval) : bool :=
  match v with
  | PyNone => false
  | PyStr s => negb (String.eqb s "")
  | PyInt z => negb (z =? 0)
  | PyList l => negb (Nat.eqb (length l) 0)
  | PyBytes b => negb (String.eqb b "")
  | PyDict d => negb (Nat.eqb (length d) 0)
  end.

(** Hashable values, as they are used for dictionary keys and set
    members.  A list and a dict are unhashable: hashing one raises
    [TypeError].  A [bytes] value never equals a [str]. *)
Inductive key : Type :=
  | KNone
  | KStr (s : string)
  | KInt (z : Z)
  | KBytes (b : string).

Global Instance key_eq_dec : EqDecision key.
Proof. solve_decision. Defined.

Definition key_enc (k : key) : option (string + Z + string) :=
  match k with
  | KNone => None
  | KStr s => Some (inl (inl s))
  | KInt z => Some (inl (inr z))
  | KBytes b => Some (inr b)
  end.

Definition key_dec (o : option (string + Z + string)) : key :=
  match o with
  | None => KNone
  | Some (inl (inl s)) => KStr s
  | Some (inl (inr z)) => KInt z
  | Some (inr b) => KBytes b
  end.

Global Instance key_countable : Countable key.
Proof. apply (inj_countable' key_enc key_dec). by intros []. Defined.

Definition to_key (v : pyval) : option key :=
  match v with
  | PyNone => Some KNone
  | PyStr s => Some (KStr s)
  | PyInt z => Some (KInt z)
  | PyList _ => None
  | PyBytes b => Some (KBytes b)
  | PyDict _ => None
  end.

Definition hash (v : pyval) : result key :=
  match to_key v with
  | Some k => Ok k
  | None => Raise TypeError
  end.

(** ** Strings: [str.lower], [str.strip], [str.split] *)

Definition code (c : ascii) : N := N_of_ascii c.

Definition between (lo hi n : N) : bool := ((lo <=? n) && (n <=? hi))%N.

(** [str.lower] on one code point below 256: A-Z, and the Latin-1
    capitals U+00C0..U+00DE except the multiplication sign U+00D7. *)
Definition lower_char (c : ascii) : ascii :=
  let n := code c in
  if between 65 90 n || (between 192 222 n && negb (n =? 215)%N)
  then ascii_of_N (n + 32)
  else c.

Fixpoint lower (s : string) : string :=
  match s with
  | EmptyString => EmptyString
  | String c s' => String (lower_char c) (lower s')
  end.

(** [bytes.lower]: the ASCII letters A-Z only. *)
Definition lower_byte (c : ascii) : ascii :=
  let n := code c in
  if between 65 90 n then ascii_of_N (n + 32) else c.

Fixpoint lower_bytes (b : string) : string :=
  match b with
  | EmptyString => EmptyString
  | String c b' => String (lower_byte c) (lower_bytes b')
  end.

(** The characters [str.strip] removes (those for which
    [str.isspace] holds), among the code points below 256. *)
Definition is_space (c : ascii) : bool :=
  let n := code c in
  between 9 13 n || between 28 32 n || (n =? 133)%N || (n =? 160)%N.

Fixpoint lstrip (s : string) : string :=
  match s with
  | EmptyString => EmptyString
  | String c s' => if is_space c then lstrip s' else s
  end.

Fixpoint rstrip (s : string) : string :=
  match s with
  | EmptyString => EmptyString
  | String c s' =>
      match rstrip s' with
      | EmptyString => if is_space c then EmptyString else String c EmptyString
      | r => String c r
      end
  end.

Definition strip (s : string) : string := rstrip (lstrip s).

(** [s.split(sep)] for a one-character separator: every occurrence
    splits, empty pieces are kept. *)
Fixpoint split (sep : ascii) (s : string) : list string :=
  match s with
  | EmptyString => [EmptyString]
  | String c s' =>
      if Ascii.eqb c sep then EmptyString :: split sep s'
      else match split sep s' with
           | piece :: rest => String c piece :: rest
           | [] => [String c EmptyString]
           end
  end.

(** ** Dates: [datetime], [strptime] with the format [%Y-%m-%d] *)

Record datetime : Type := mkDatetime {
  year : Z; month : Z; day : Z;
  hour : Z; minute : Z; second : Z; microsecond : Z
}.

Definition is_leap (y : Z) : bool :=
  (y mod 4 =? 0) && (negb (y mod 100 =? 0) || (y mod 400 =? 0)).

Definition days_in_month (y m : Z) : Z :=
  if m =? 2 then (if is_leap y then 29 else 28)
  else if (m =? 4) || (m =? 6) || (m =? 9) || (m =? 11) then 30
  else 31.

Definition days_before_year (y : Z) : Z :=
  let p := y - 1 in p * 365 + p / 4 - p / 100 + p / 400.

(** Days of the year before the first day of month [m]. *)
Definition days_before_month (y m : Z) : Z :=
  fold_right Z.add 0
    (map (fun i => days_in_month y (Z.of_nat i)) (seq 1 (Z.to_nat (m - 1)))).

Definition ymd2ord (y m d : Z) : Z :=
  days_before_year y + days_before_month y m + d.

Definition toordinal (t : datetime) : Z := ymd2ord (year t) (month t) (day t).

(** A date the [datetime] constructor accepts (else [ValueError]). *)
Definition valid_date (y m d : Z) : bool :=
  (1 <=? y) && (y <=? 9999) && (1 <=? m) && (m <=? 12) &&
  (1 <=? d) && (d <=? days_in_month y m).

Definition digit (c : ascii) : option Z :=
  let n := code c in
  if between 48 57 n then Some (Z.of_N n - 48) else None.

Definition digit_in (lo hi : Z) (c : ascii) : option Z :=
  match digit c with
  | Some v => if (lo <=? v) && (v <=? hi) then Some v else None
  | None => None
  end.

Definition is_dash (c : ascii) : bool := (code c =? 45)%N.

(** The month directive [%m] followed by the literal dash:
    [1[0-2]], then [0[1-9]], then [[1-9]]. *)
Definition parse_month (s : string) : option (Z * string) :=
  match s with
  | String a (String b rest) =>
      let two :=
        match rest with
        | String c rest' =>
            if is_dash c then
              match digit_in 1 1 a, digit_in 0 2 b with
              | Some _, Some v => Some (10 + v, rest')
              | _, _ =>
                  match digit_in 0 0 a, digit_in 1 9 b with
                  | Some _, Some v => Some (v, rest')
                  | _, _ => None
                  end
              end
            else None
        | EmptyString => None
        end in
      match two with
      | Some r => Some r
      | None =>
          match digit_in 1 9 a with
          | Some v => if is_dash b then Some (v, rest) else None
          | None => None
          end
      end
  | _ => None
  end.

(** The day directive [%d] at the end of the input: [3[01]],
    [[12]\d], [0[1-9]], [[1-9]], or a blank and [[1-9]]; nothing may
    remain after it. *)
Definition parse_day (s : string) : option Z :=
  match s with
  | String a EmptyString => digit_in 1 9 a
  | String a (String b EmptyString) =>
      match digit_in 3 3 a, digit_in 0 1 b with
      | Some _, Some v => Some (30 + v)
      | _, _ =>
          match digit_in 1 2 a, digit b with
          | Some u, Some v => Some (10 * u + v)
          | _, _ =>
              match digit_in 0 0 a, digit_in 1 9 b with
              | Some _, Some v => Some v
              | _, _ => if (code a =? 32)%N then digit_in 1 9 b else None
              end
          end
      end
  | _ => None
  end.

(** [datetime.strptime(s, "%Y-%m-%d")] on a [str]; [None] stands for
    the [ValueError] it raises.  The format is matched as the regular
    expression [(\d\d\d\d)-(1[0-2]|0[1-9]|[1-9])-(3[01]|[12]\d|0[1-9]|[1-9]| [1-9])]
    against a prefix of the input, input left over is an error, and the
    three numbers must name a calendar date of the years 1 to 9999.  So
    the year has four digits, while the month and the day may lack the
    leading zero. *)
Definition strptime (s : string) : option datetime :=
  match s with
  | String y1 (String y2 (String y3 (String y4 (String dash rest)))) =>
      match digit y1, digit y2, digit y3, digit y4 with
      | Some a, Some b, Some c, Some d =>
          if is_dash dash then
            match parse_month rest with
            | Some (m, rest') =>
                match parse_day rest' with
                | Some dd =>
                    let y := 1000 * a + 100 * b + 10 * c + d in
                    if valid_date y m dd
                    then Some (mkDatetime y m dd 0 0 0 0)
                    else None
                | None => None
                end
            | None => None
            end
          else None
      | _, _, _, _ => None
      end
  | _ => None
  end.

Definition day_us : Z := 86400 * 1000000.

(** Microseconds since midnight. *)
Definition time_us (t : datetime) : Z :=
  ((hour t * 60 + minute t) * 60 + second t) * 1000000 + microsecond t.

(** [(a - b).days]: a [timedelta] is normalised so that its seconds
    and microseconds are not negative, hence the floor. *)
Definition sub_days (a b : datetime) : Z :=
  ((toordinal a - toordinal b) * day_us + (time_us a - time_us b)) / day_us.

(** ** The analysis of [app.py] *)

Inductive risk : Type :=
  | COMPLETED | CRITICAL | HIGH | MEDIUM | LOW | UNKNOWN | BLOCKED.

Global Instance risk_eq_dec : EqDecision risk.
Proof. solve_decision. Defined.

(** [status.lower()]: a [str] and a [bytes] have the method, the other
    values raise [AttributeError]. *)
Definition py_lower (v : pyval) : result pyval :=
  match v with
  | PyStr s => Ok (PyStr (lower s))
  | PyBytes b => Ok (PyBytes (lower_bytes b))
  | _ => Raise AttributeError
  end.

Definition is_done (s : string) : bool :=
  bool_decide (s ∈ ["done"; "completed"]%string).

(** [x in ["done", "completed"]]: only a [str] equals a [str]. *)
Definition in_done (x : pyval) : bool :=
  match x with
  | PyStr s => is_done s
  | _ => false
  end.

Definition calculate_risk_level (now : datetime) (deadline_str status : pyval)
  : result (risk * Z) :=
  lowered ← py_lower status;
  if in_done lowered then Ok (COMPLETED, 0)
  else
    match deadline_str with
    | PyStr d =>
        match strptime d with
        | Some deadline =>
            let days_remaining := sub_days deadline now in
            if days_remaining <? 0 then Ok (CRITICAL, days_remaining)
            else if days_remaining <? 1 then Ok (HIGH, days_remaining)
            else if days_remaining <? 3 then Ok (MEDIUM, days_remaining)
            else Ok (LOW, days_remaining)
        | None => Ok (UNKNOWN, 0)
        end
    | _ => Raise TypeError
    end.

Definition format_time_remaining (days : Z) : string :=
  if days <? 0 then "OVERDUE by " +:+ pretty (Z.abs days) +:+ " day(s)"
  else if days =? 0 then "Due TODAY"
  else pretty days +:+ " day(s)".

(** *** Dictionaries in insertion order *)

Definition pydict (V : Type) : Type := list (key * V).

Fixpoint dict_get {V} (d : pydict V) (k : key) : option V :=
  match d with
  | [] => None
  | (k', v) :: d' => if decide (k' = k) then Some v else dict_get d' k
  end.

(** [d[k] = v]: an existing key keeps its position. *)
Fixpoint dict_set {V} (d : pydict V) (k : key) (v : V) : pydict V :=
  match d with
  | [] => [(k, v)]
  | (k', v') :: d' =>
      if decide (k' = k) then (k', v) :: d' else (k', v') :: dict_set d' k v
  end.

(** *** Tasks *)

Abbreviation task := (gmap string pyval).

(** [task.get(field)] and [task.get(field, default)]. *)
Definition get (t : task) (field : string) : pyval :=
  default PyNone (t !! field).

Definition get_or (t : task) (field : string) (dflt : pyval) : pyval :=
  default dflt (t !! field).

(** *** [build_dependency_graph] *)

Abbreviation graph_t := (pydict (list pyval)).
Abbreviation maps_t := (graph_t * pydict pyval * pydict risk)%type.

(** First loop: one entry per task in the three dictionaries. *)
Fixpoint init_maps (now : datetime) (tasks : list task) (st : maps_t)
  : result maps_t :=
  match tasks with
  | [] => Ok st
  | task :: rest =>
      let '(graph, status_map, risk_map) := st in
      let t_id := get task "task_id" in
      k ← hash t_id;
      let graph := dict_set graph k [] in
      let status_map :=
        dict_set status_map k (get_or task "task_status" (PyStr "todo")) in
      '(risk, _) ← calculate_risk_level now
                     (get_or task "task_deadline" (PyStr ""))
                     (get_or task "task_status" (PyStr ""));
      let risk_map := dict_set risk_map k risk in
      init_maps now rest (graph, status_map, risk_map)
  end.

(** The list [deps] of a truthy [depends_on]: the stripped pieces of
    a string, or the value itself as the single element. *)
Definition deps_of (depends_on : pyval) : list pyval :=
  match depends_on with
  | PyStr s => map (fun d => PyStr (strip d)) (split "," s)
  | v => [v]
  end.

(** [for dep_id in deps: if dep_id in graph: graph[dep_id].append(t_id)] *)
Fixpoint add_edges (t_id : pyval) (deps : list pyval) (graph : graph_t)
  : result graph_t :=
  match deps with
  | [] => Ok graph
  | dep_id :: rest =>
      k ← hash dep_id;
      match dict_get graph k with
      | Some dependents =>
          add_edges t_id rest (dict_set graph k (dependents ++ [t_id]))
      | None => add_edges t_id rest graph
      end
  end.

(** Second loop: the reverse-dependency edges. *)
Fixpoint populate (tasks : list task) (graph : graph_t) : result graph_t :=
  match tasks with
  | [] => Ok graph
  | task :: rest =>
      let t_id := get task "task_id" in
      let depends_on := get task "depends_on" in
      graph ← (if truthy depends_on
               then add_edges t_id (deps_of depends_on) graph
               else Ok graph);
      populate rest graph
  end.

Definition build_dependency_graph (now : datetime) (tasks : list task)
  : result maps_t :=
  '(graph, status_map, risk_map) ← init_maps now tasks ([], [], []);
  graph ← populate tasks graph;
  Ok (graph, status_map, risk_map).

(** *** [analyze_cascading_risks] *)

(** [dep_risk in ["CRITICAL", "HIGH"]], for the result of
    [risk_map.get(dep_id)]. *)
Definition critical_or_high (dep_risk : option risk) : bool :=
  match dep_risk with
  | Some CRITICAL | Some HIGH => true
  | _ => false
  end.

Fixpoint mark_blocked (risk_map : pydict risk) (t_id : pyval)
    (deps : list pyval) (blocked_tasks : gset key) : result (gset key) :=
  match deps with
  | [] => Ok blocked_tasks
  | dep_id :: rest =>
      k ← hash dep_id;
      let dep_risk := dict_get risk_map k in
      if critical_or_high dep_risk then
        t ← hash t_id;
        mark_blocked risk_map t_id rest ({[t]} ∪ blocked_tasks)
      else mark_blocked risk_map t_id rest blocked_tasks
  end.

Fixpoint find_blocked (risk_map : pydict risk) (tasks : list task)
    (blocked_tasks : gset key) : result (gset key) :=
  match tasks with
  | [] => Ok blocked_tasks
  | task :: rest =>
      let t_id := get task "task_id" in
      let depends_on := get task "depends_on" in
      blocked_tasks ← (if truthy depends_on
                       then mark_blocked risk_map t_id (deps_of depends_on)
                              blocked_tasks
                       else Ok blocked_tasks);
      find_blocked risk_map rest blocked_tasks
  end.

(** [for t_id, dependents in graph.items(): if len(dependents) > 1] *)
Fixpoint find_bottlenecks (graph : graph_t) : list key :=
  match graph with
  | [] => []
  | (t_id, dependents) :: rest =>
      if (1 <? length dependents)%nat
      then t_id :: find_bottlenecks rest
      else find_bottlenecks rest
  end.

Definition analyze_cascading_risks (now : datetime) (tasks : list task)
  : result (list key * list key) :=
  '(graph, status_map, risk_map) ← build_dependency_graph now tasks;
  blocked_tasks ← find_blocked risk_map tasks ∅;
  let bottlenecks := find_bottlenecks graph in
  Ok (elements blocked_tasks, bottlenecks).

(** *** The per-task loop of [handle_request] *)

Record analyzed_task : Type := mkAnalyzed {
  a_id : pyval;
  a_name : pyval;
  a_deadline : pyval;
  a_risk : risk;
  a_days_remaining : Z;
  a_time_text : string;
  a_is_bottleneck : bool
}.

(** [t_id in l] for a list of hashable values. *)
Definition in_list (t_id : pyval) (l : list key) : bool :=
  match to_key t_id with
  | Some k => bool_decide (k ∈ l)
  | None => false
  end.

(** The override of lines 294-295. *)
Definition override (is_blocked : bool) (r : risk) : risk :=
  if is_blocked && negb (bool_decide (r ∈ [CRITICAL; COMPLETED]))
  then BLOCKED else r.

(** [risk_counts[risk] += 1] *)
Definition bump (risk_counts : risk → nat) (r : risk) : risk → nat :=
  fun r' => if decide (r' = r) then S (risk_counts r') else risk_counts r'.

Fixpoint analyze_tasks (now : datetime) (blocked_tasks bottlenecks : list key)
    (tasks : list task) (risk_counts : risk → nat)
  : result ((risk → nat) * list analyzed_task) :=
  match tasks with
  | [] => Ok (risk_counts, [])
  | task :: rest =>
      let t_id := get task "task_id" in
      '(risk, days) ← calculate_risk_level now
                        (get_or task "task_deadline" (PyStr ""))
                        (get_or task "task_status" (PyStr ""));
      let risk := override (in_list t_id blocked_tasks) risk in
      let risk_counts := bump risk_counts risk in
      let entry :=
        mkAnalyzed t_id (get task "task_name") (get task "task_deadline")
          risk days (format_time_remaining days) (in_list t_id bottlenecks) in
      '(risk_counts, analyzed) ←
        analyze_tasks now blocked_tasks bottlenecks rest risk_counts;
      Ok (risk_counts, entry :: analyzed)
  end.

Record analysis_result : Type := mkResult {
  analyzed_tasks : list analyzed_task;
  risk_counts : risk → nat;
  blocked_task_ids : list key;
  bottleneck_task_ids : list key
}.

(** Steps 1 and 2 of [handle_request]: the dependency analysis, then
    the deterministic analysis of every task. *)
Definition handle_request_analysis (now : datetime) (tasks : list task)
  : result analysis_result :=
  '(blocked_tasks, bottlenecks) ← analyze_cascading_risks now tasks;
  '(counts, analyzed) ←
    analyze_tasks now blocked_tasks bottlenecks tasks (fun _ => 0%nat);
  Ok (mkResult analyzed counts blocked_tasks bottlenecks).

(** ** Sample snapshots *)

Definition mk_task (id status deadline : string) (depends_on : pyval) : task :=
  list_to_map [("task_id", PyStr id); ("task_name", PyStr ("Task " +:+ id));
               ("task_status", PyStr status); ("task_deadline", PyStr deadline);
               ("depends_on", depends_on)]%string.

Definition clock0 : datetime := mkDatetime 2026 11 3 12 0 0 0.

Definition tasks_ABC : list task :=
  [ mk_task "A" "todo" "2020-01-01" PyNone;
    mk_task "B" "todo" "2099-01-01" (PyStr "A");
    mk_task "C" "todo" "2099-01-01" (PyStr "A") ].

Definition tasks_cycle : list task :=
  [ mk_task "A" "todo" "2099-01-01" (PyStr "B");
    mk_task "B" "todo" "2099-01-01" (PyStr "A") ].

Definition tasks_list_deps : list task :=
  [ mk_task "X" "todo" "2030-01-01" PyNone;
    mk_task "Y" "todo" "2030-01-01" PyNone;
    mk_task "Z" "todo" "2030-01-01" (PyList [PyStr "X"; PyStr "Y"]) ].

Definition tasks_str_deps : list task :=
  [ mk_task "X" "todo" "2030-01-01" PyNone;
    mk_task "Y" "todo" "2030-01-01" PyNone;
    mk_task "Z" "todo" "2030-01-01" (PyStr "X, Y") ].

Definition tasks_dup : list task :=
  [ mk_task "A" "todo" "2099-01-01" PyNone;
    mk_task "B" "todo" "2099-01-01" (PyStr "A, A") ].

(** The chain of the dependency tests: 1 is overdue, 2 waits for 1,
    3 waits for 2. *)
Definition tasks_chain : list task :=
  [ mk_task "1" "todo" "2020-01-01" PyNone;
    mk_task "2" "todo" "2099-01-01" (PyStr "1");
    mk_task "3" "todo" "2099-01-01" (PyStr "2") ].

(** A document whose status field is present and null. *)
Definition task_null_status : task :=
  list_to_map [("task_id", PyStr "A"); ("task_name", PyStr "Task A");
               ("task_status", PyNone);
               ("task_deadline", PyStr "2030-01-01")]%string.

(** A document with an ID and nothing else, between a document with
    no field at all and a task that waits for it. *)
Definition task_bare : task := list_to_map [("task_id", PyStr "A")]%string.

Definition tasks_bare : list task :=
  [ ∅; task_bare; mk_task "B" "todo" "2099-01-01" (PyStr "A") ].

(** ** Notions used to state the properties *)

Definition task_id (t : task) : pyval := get t "task_id".
Definition status_of (t : task) : pyval := get_or t "task_status" (PyStr "").
Definition deadline_of (t : task) : pyval := get_or t "task_deadline" (PyStr "").

(** The intrinsic classification of a task: what [calculate_risk_level]
    returns for its own deadline and status. *)
Definition intrinsic (now : datetime) (t : task) : result (risk * Z) :=
  calculate_risk_level now (deadline_of t) (status_of t).

(** Its tier alone, as [risk_map] stores it. *)
Definition intrinsic_risk (now : datetime) (t : task) : option risk :=
  match intrinsic now t with
  | Ok (r, _) => Some r
  | Raise _ => None
  end.

(** The predecessor IDs a task declares, one entry per declaration. *)
Definition declared (t : task) : list pyval :=
  if truthy (get t "depends_on") then deps_of (get t "depends_on") else [].

Definition has_key (k : key) (v : pyval) : bool :=
  bool_decide (to_key v = Some k).

(** The task an ID resolves to: the last task of the sequence carrying
    it (the only one when IDs are unique). *)
Fixpoint resolve (tasks : list task) (k : key) : option task :=
  match tasks with
  | [] => None
  | t :: rest =>
      match resolve rest k with
      | Some p => Some p
      | None => if has_key k (task_id t) then Some t else None
      end
  end.

(** The edges into [k]: the ID of the declaring task, once for each of
    its declarations of [k], in the order of the sequence. *)
Definition edges_from (k : key) (t : task) : list pyval :=
  flat_map (fun d => if has_key k d then [task_id t] else []) (declared t).

Definition edges_to (k : key) (tasks : list task) : list pyval :=
  flat_map (edges_from k) tasks.

Definition hashable (v : pyval) : bool :=
  match v with
  | PyNone | PyStr _ | PyInt _ | PyBytes _ => true
  | PyList _ | PyDict _ => false
  end.

Definition is_str (v : pyval) : bool :=
  match v with PyStr _ => true | _ => false end.

Definition is_bytes (v : pyval) : bool :=
  match v with PyBytes _ => true | _ => false end.

(** The tasks the first loop and the per-task loop can classify: the
    ID is hashable, the status is a string or a [bytes], and the
    deadline is a string unless the status is a done-synonym.  Absent
    fields are fine. *)
Definition classifiable (t : task) : bool :=
  hashable (task_id t) &&
  match status_of t with
  | PyStr s => is_done (lower s) || is_str (deadline_of t)
  | PyBytes _ => is_str (deadline_of t)
  | _ => false
  end.

(** A [depends_on] the edge loops can walk: empty in the sense of
    [if depends_on:], a string, or a hashable value. *)
Definition deps_typed (t : task) : bool :=
  negb (truthy (get t "depends_on")) || is_str (get t "depends_on") ||
  hashable (get t "depends_on").

(** The tasks on which no operation of the analysis fails. *)
Definition well_typed (t : task) : bool := classifiable t && deps_typed t.

(** How many times task [t] declares the predecessor [k]. *)
Definition declarations (k : key) (t : task) : nat :=
  length (filter (λ d, has_key k d) (declared t)).

(** The number of entries in all dependent-lists of a graph, and the
    number of declarations in a task sequence. *)
Definition graph_size (g : graph_t) : nat :=
  sum_list_with (λ e, length e.2) g.

Definition declared_edges (tasks : list task) : nat :=
  sum_list_with (λ t, length (declared t)) tasks.

(** The sum of the seven counters of the histogram. *)
Definition total (counts : risk → nat) : nat :=
  (counts CRITICAL + counts HIGH + counts MEDIUM + counts LOW +
   counts COMPLETED + counts UNKNOWN + counts BLOCKED)%nat.

(** Membership of a task's ID in the blocked set of a result. *)
Definition in_blocked_set (res : analysis_result) (t : task) : Prop :=
  ∃ k, to_key (task_id t) = Some k ∧ k ∈ blocked_task_ids res.

(** The record the loop builds for a task of intrinsic classification
    [(r, days)]. *)
Definition entry_of (bl bn : list key) (t : task) (r : risk) (days : Z)
  : analyzed_task :=
  mkAnalyzed (task_id t) (get t "task_name") (get t "task_deadline")
    (override (in_list (task_id t) bl) r) days
    (format_time_remaining days) (in_list (task_id t) bn).

(** Every character, and the words made of the letters a-z. *)
Definition all_ascii : list ascii := map ascii_of_nat (seq 0 256).

Definition lower_az (b : ascii) : bool := between 97 122 (code b).

Fixpoint all_lower_az (w : string) : bool :=
  match w with
  | EmptyString => true
  | String b w' => lower_az b && all_lower_az w'
  end.

(** Two characters that are equal, or the two cases of one of the
    letters A-Z. *)
Definition same_letter (a b : ascii) : bool :=
  Ascii.eqb a b ||
  (between 65 90 (code a) && (code b =? code a + 32)%N) ||
  (between 65 90 (code b) && (code a =? code b + 32)%N).

Fixpoint eq_ignore_case (s w : string) : bool :=
  match s, w with
  | EmptyString, EmptyString => true
  | String a s', String b w' => same_letter a b && eq_ignore_case s' w'
  | _, _ => false
  end.

(** A status that marks a task as finished. *)
Definition done_synonym (status : string) : Prop :=
  eq_ignore_case status "done" = true ∨ eq_ignore_case status "completed" = true.

(** Strict reading of the form YYYY-MM-DD, as the specification words
    it: four digits, a dash, two digits, a dash, two digits, naming a
    calendar date. *)
Definition strict_yyyy_mm_dd (s : string) : option (Z * Z * Z) :=
  match s with
  | String y1 (String y2 (String y3 (String y4 (String p (String m1 (String m2
      (String q (String d1 (String d2 EmptyString))))))))) =>
      match digit y1, digit y2, digit y3, digit y4,
            digit m1, digit m2, digit d1, digit d2 with
      | Some a, Some b, Some c, Some d, Some e, Some f, Some g, Some h =>
          let y := 1000 * a + 100 * b + 10 * c + d in
          let m := 10 * e + f in
          let dd := 10 * g + h in
          if is_dash p && is_dash q && valid_date y m dd
          then Some (y, m, dd) else None
      | _, _, _, _, _, _, _, _ => None
      end
  | _ => None
  end.

(** A time of day as [datetime.now()] can return it. *)
Definition valid_time (t : datetime) : Prop :=
  0 ≤ hour t < 24 ∧ 0 ≤ minute t < 60 ∧ 0 ≤ second t < 60 ∧
  0 ≤ microsecond t < 1000000.

(** ** Notions used for the further properties *)

(** How pressing a tier is among the tiers a deadline can give. *)
Definition urgency (r : risk) : nat :=
  match r with
  | CRITICAL => 3
  | HIGH => 2
  | MEDIUM => 1
  | _ => 0
  end.

(** A point in time, in microseconds. *)
Definition instant (t : datetime) : Z := toordinal t * day_us + time_us t.

(** The keys of a list in the order of their first appearance. *)
Fixpoint first_seen (ks : list key) : list key :=
  match ks with
  | [] => []
  | k :: ks' => k :: filter (λ x, x ≠ k) (first_seen ks')
  end.

(** The IDs of the tasks, as keys, in the order of the sequence. *)
Definition task_keys (tasks : list task) : list key :=
  omap (λ t, to_key (task_id t)) tasks.

(** A declaration that names one of the keys [ks]; with the IDs of the
    tasks for [ks], one that names some task of the sequence. *)
Definition in_keys (ks : list key) (d : pyval) : bool :=
  match to_key d with
  | Some k => bool_decide (k ∈ ks)
  | None => false
  end.

Definition known (tasks : list task) (d : pyval) : bool :=
  in_keys (task_keys tasks) d.

Fixpoint count_char (c : ascii) (s : string) : nat :=
  match s with
  | EmptyString => 0
  | String a s' => (if Ascii.eqb a c then 1 else 0) + count_char c s'
  end.

(** The status [status_map] records for a task. *)
Definition recorded_status (t : task) : pyval :=
  get_or t "task_status" (PyStr "todo").

(** ** The dependency field as the specification reads it *)

(** The specification describes [dependsOn] as zero or more IDs that
    arrive as a single ID, as a comma-separated list of IDs with the
    whitespace around each trimmed, or as an ordered sequence of IDs.
    The definitions below follow these words and use none of the
    functions of the analysis. *)

(** Whitespace, by code point. *)
Definition blank (c : ascii) : bool :=
  bool_decide (code c ∈ [9; 10; 11; 12; 13; 28; 29; 30; 31; 32; 133; 160]%N).

Fixpoint skip_blanks (l : list ascii) : list ascii :=
  match l with
  | [] => []
  | c :: l' => if blank c then skip_blanks l' else l
  end.

(** A field without the whitespace at its two ends. *)
Definition trim (s : string) : string :=
  string_of_list_ascii
    (rev (skip_blanks (rev (skip_blanks (list_ascii_of_string s))))).

(** The fields of a comma-separated text, read from left to right:
    [current] is the field being read. *)
Fixpoint fields_from (current s : string) : list string :=
  match s with
  | EmptyString => [current]
  | String c s' =>
      if bool_decide (c = ","%char) then current :: fields_from "" s'
      else fields_from (current +:+ String c "") s'
  end.

Definition comma_fields (s : string) : list string := fields_from "" s.

(** The IDs a value of the field names: none for an empty value (null,
    zero, an empty string, [bytes], sequence or dict), the trimmed
    fields of a string, empty fields included, the elements of a
    sequence, and the value itself, as a single ID, otherwise. *)
Definition named_ids (v : pyval) : list pyval :=
  match v with
  | PyNone | PyStr EmptyString | PyInt Z0 | PyBytes EmptyString
  | PyDict [] => []
  | PyStr s => map (λ f, PyStr (trim f)) (comma_fields s)
  | PyList l => l
  | PyInt _ | PyBytes _ | PyDict _ => [v]
  end.

(** The predecessor IDs a task names, one entry per mention, and the
    number of times it names [k]. *)
Definition named (t : task) : list pyval :=
  match t !! "depends_on" with
  | Some v => named_ids v
  | None => []
  end.

Definition mentions (k : key) (t : task) : nat :=
  length (filter (λ d, to_key d = Some k) (named t)).

(** ** Dictionaries *)

Section dict.
Context {V : Type}.
Implicit Types (d : pydict V) (k : key) (v : V).

Lemma dict_get_set d k v k' :
  dict_get (dict_set d k v) k' =
  if decide (k = k') then Some v else dict_get d k'.
Proof.
  induction d as [|[k0 v0] d IH]; simpl.
  - by repeat case_decide.
  - repeat (case_decide; simpl; subst); done.
Qed.

Lemma dict_get_None d k : dict_get d k = None ↔ k ∉ d.*1.
Proof.
  induction d as [|[k0 v0] d IH]; simpl.
  - split; [intros _; apply not_elem_of_nil | done].
  - rewrite not_elem_of_cons. case_decide; subst.
    + split; [done | by intros []].
    + rewrite IH. split; [by intros ? | by intros [_ ?]].
Qed.

(** Assigning to a present key leaves the order of the keys alone;
    a new key goes to the end. *)
Lemma dict_set_keys d k v :
  (dict_set d k v).*1 = if dict_get d k is Some _ then d.*1 else d.*1 ++ [k].
Proof.
  induction d as [|[k0 v0] d IH]; cbn [dict_set dict_get]; [done|].
  case_decide; subst; [done|].
  rewrite !fmap_cons, IH. by destruct (dict_get d k).
Qed.

Lemma dict_set_NoDup d k v : NoDup d.*1 → NoDup (dict_set d k v).*1.
Proof.
  intros Hnd. rewrite dict_set_keys.
  destruct (dict_get d k) eqn:Hg; [done|].
  apply NoDup_app. split_and!; [done | | apply NoDup_singleton].
  intros x Hx ->%list_elem_of_singleton. by apply dict_get_None in Hg.
Qed.

Lemma dict_get_elem_of d k v :
  NoDup d.*1 → (k, v) ∈ d ↔ dict_get d k = Some v.
Proof.
  induction d as [|[k0 v0] d IH]; simpl; intros Hnd.
  - split; [by intros ?%elem_of_nil | done].
  - apply NoDup_cons in Hnd as [Hk0 Hnd]. rewrite elem_of_cons.
    case_decide; subst.
    + split; [|intros [= ->]; by left].
      intros [[= ->]|Hin]; [done|].
      destruct Hk0. apply list_elem_of_fmap. by exists (k, v).
    + rewrite <- IH by done. split; [|by right].
      intros [[= -> ->]|?]; done.
Qed.
End dict.

(** ** The error monad *)

Lemma bind_Ok {A B} (a : A) (f : A → result B) : (Ok a ≫= f) = f a.
Proof. reflexivity. Qed.

Lemma bind_eq {A B} (m : result A) (f : A → result B) a r :
  m = Ok a → f a = r → m ≫= f = r.
Proof. by intros -> <-. Qed.

Lemma hash_hashable v : hashable v → ∃ k, to_key v = Some k ∧ hash v = Ok k.
Proof. destruct v; intros H; try done; unfold hash; simpl; eauto. Qed.

Lemma deps_of_hashable v :
  negb (truthy v) || is_str v || hashable v →
  truthy v → Forall hashable (deps_of v).
Proof.
  destruct v as [|s|z|l|b|d]; simpl; try done.
  - intros _ _. apply Forall_fmap, Forall_true. done.
  - intros _ _. by repeat constructor.
  - by destruct (Nat.eqb (length l) 0).
  - intros _ _. by repeat constructor.
  - by destruct (Nat.eqb (length d) 0).
Qed.

(** ** What a well-typed task guarantees *)

Lemma well_typed_classifiable t : well_typed t → classifiable t.
Proof. unfold well_typed. rewrite andb_True. tauto. Qed.

Lemma Forall_well_typed_classifiable tasks :
  Forall well_typed tasks → Forall classifiable tasks.
Proof. intros H. eapply Forall_impl; [exact H|]. apply well_typed_classifiable. Qed.

Lemma classifiable_id t : classifiable t → hashable (task_id t).
Proof. unfold classifiable. rewrite andb_True. tauto. Qed.

Lemma well_typed_id t : well_typed t → hashable (task_id t).
Proof. intros. by apply classifiable_id, well_typed_classifiable. Qed.

Lemma well_typed_declared t : well_typed t → Forall hashable (declared t).
Proof.
  unfold well_typed, deps_typed, declared. rewrite andb_True. intros [_ H].
  destruct (truthy (get t "depends_on")) eqn:Ht; [|constructor].
  apply deps_of_hashable; [by rewrite Ht | by rewrite Ht].
Qed.

Lemma classifiable_intrinsic now t :
  classifiable t → ∃ r days, intrinsic now t = Ok (r, days).
Proof.
  unfold classifiable, intrinsic, calculate_risk_level.
  rewrite !andb_True. intros [_ H].
  destruct (status_of t) as [|s| | |b|]; try done; simpl.
  - destruct (is_done (lower s)); [eauto|]. simpl in H.
    destruct (deadline_of t) as [|d| | | |]; try done.
    destruct (strptime d); [|eauto].
    repeat case_match; eauto.
  - destruct (deadline_of t) as [|d| | | |]; try done.
    destruct (strptime d); [|eauto].
    repeat case_match; eauto.
Qed.

(** ** The first loop of [build_dependency_graph] *)

Lemma init_maps_spec now tasks g0 sm0 rm0 :
  Forall classifiable tasks → NoDup g0.*1 →
  ∃ g sm rm,
    init_maps now tasks (g0, sm0, rm0) = Ok (g, sm, rm) ∧
    NoDup g.*1 ∧
    (∀ k, dict_get g k =
          if resolve tasks k is Some _ then Some [] else dict_get g0 k) ∧
    (∀ k, dict_get rm k =
          match resolve tasks k with
          | Some p => intrinsic_risk now p
          | None => dict_get rm0 k
          end).
Proof.
  intros Hwt. revert g0 sm0 rm0.
  induction Hwt as [|t rest Ht _ IH]; intros g0 sm0 rm0 Hnd.
  - exists g0, sm0, rm0. by simpl.
  - destruct (hash_hashable _ (classifiable_id _ Ht)) as (kt & Hkt & Hh).
    destruct (classifiable_intrinsic now _ Ht) as (r & days & Hr).
    unfold task_id in Hkt, Hh. unfold intrinsic, deadline_of, status_of in Hr.
    cbn [init_maps]. rewrite Hh, bind_Ok, Hr, bind_Ok.
    destruct (IH (dict_set g0 kt []) (dict_set sm0 kt (get_or t "task_status" (PyStr "todo")))
                (dict_set rm0 kt r)) as (g & sm & rm & Heq & Hg & Hget & Hrm);
      [by apply dict_set_NoDup|].
    exists g, sm, rm. split_and!; [exact Heq | done | |].
    + intros k. rewrite Hget. cbn [resolve].
      destruct (resolve rest k); [done|].
      rewrite dict_get_set. unfold has_key, task_id. rewrite Hkt.
      case_decide; subst.
      * by rewrite bool_decide_eq_true_2.
      * rewrite bool_decide_eq_false_2; [done | congruence].
    + intros k. rewrite Hrm. cbn [resolve].
      destruct (resolve rest k); [done|].
      rewrite dict_get_set. unfold has_key, task_id. rewrite Hkt.
      case_decide; subst.
      * rewrite bool_decide_eq_true_2 by done.
        unfold intrinsic_risk, intrinsic, deadline_of, status_of. by rewrite Hr.
      * rewrite bool_decide_eq_false_2; [done | congruence].
Qed.

(** ** The second loop: edges *)

Lemma add_edges_spec t_id deps g :
  Forall hashable deps →
  ∃ g', add_edges t_id deps g = Ok g' ∧ g'.*1 = g.*1 ∧
    ∀ k, dict_get g' k =
         (λ l, l ++ flat_map (λ d, if has_key k d then [t_id] else []) deps)
           <$> dict_get g k.
Proof.
  intros Hd. revert g. induction Hd as [|d deps Hh _ IH]; intros g.
  - exists g. split_and!; [done..|]. intros k. simpl.
    destruct (dict_get g k); simpl; [by rewrite app_nil_r | done].
  - destruct (hash_hashable _ Hh) as (kd & Hkd & Hhash).
    cbn [add_edges]. rewrite Hhash, bind_Ok.
    destruct (dict_get g kd) as [l|] eqn:Hl.
    + destruct (IH (dict_set g kd (l ++ [t_id]))) as (g' & -> & Hkeys & Hget).
      exists g'. split_and!; [done | |].
      * rewrite Hkeys, dict_set_keys. by rewrite Hl.
      * intros k. rewrite Hget, dict_get_set. cbn [flat_map].
        unfold has_key at 2. rewrite Hkd.
        case_decide; subst.
        -- rewrite Hl, bool_decide_eq_true_2 by done. simpl.
           by rewrite <- app_assoc.
        -- rewrite bool_decide_eq_false_2 by congruence. done.
    + destruct (IH g) as (g' & -> & Hkeys & Hget).
      exists g'. split_and!; [done..|].
      intros k. rewrite Hget. cbn [flat_map]. unfold has_key at 2. rewrite Hkd.
      destruct (decide (kd = k)); subst.
      * by rewrite Hl.
      * rewrite bool_decide_eq_false_2 by congruence. done.
Qed.

Lemma populate_spec tasks g :
  Forall well_typed tasks →
  ∃ g', populate tasks g = Ok g' ∧ g'.*1 = g.*1 ∧
    ∀ k, dict_get g' k = (λ l, l ++ edges_to k tasks) <$> dict_get g k.
Proof.
  intros Hwt. revert g. induction Hwt as [|t rest Ht _ IH]; intros g.
  - exists g. split_and!; [done..|]. intros k. simpl.
    destruct (dict_get g k); simpl; [by rewrite app_nil_r | done].
  - cbn [populate].
    pose proof (well_typed_declared _ Ht) as Hd. unfold declared in Hd.
    assert (∃ g1, (if truthy (get t "depends_on")
                   then add_edges (get t "task_id") (deps_of (get t "depends_on")) g
                   else Ok g) = Ok g1 ∧ g1.*1 = g.*1 ∧
              ∀ k, dict_get g1 k = (λ l, l ++ edges_from k t) <$> dict_get g k)
      as (g1 & -> & Hk1 & Hg1).
    { unfold edges_from, declared, task_id.
      destruct (truthy (get t "depends_on")).
      - by apply add_edges_spec.
      - exists g. split_and!; [done..|]. intros k. simpl.
        destruct (dict_get g k); simpl; [by rewrite app_nil_r | done]. }
    rewrite bind_Ok. destruct (IH g1) as (g' & -> & Hk & Hg).
    exists g'. split_and!; [done | congruence |].
    intros k. rewrite Hg, Hg1. unfold edges_to. cbn [flat_map].
    destruct (dict_get g k); simpl; [by rewrite <- app_assoc | done].
Qed.

(** ** The blocking pass and the bottleneck pass *)

Lemma mark_blocked_spec rm t_id deps (b : gset key) :
  hashable t_id → Forall hashable deps →
  ∃ b', mark_blocked rm t_id deps b = Ok b' ∧
    ∀ k, k ∈ b' ↔
         k ∈ b ∨ (to_key t_id = Some k ∧
                  ∃ d kd, d ∈ deps ∧ to_key d = Some kd ∧
                          critical_or_high (dict_get rm kd)).
Proof.
  intros Ht Hd. revert b. induction Hd as [|d deps Hh _ IH]; intros b.
  - exists b. split; [done|]. intros k. split; [by left|].
    intros [?|(_ & d & kd & ?%elem_of_nil & _)]; done.
  - destruct (hash_hashable _ Hh) as (kd & Hkd & Hhash).
    destruct (hash_hashable _ Ht) as (kt & Hkt & Hhasht).
    cbn [mark_blocked]. rewrite Hhash, bind_Ok.
    destruct (critical_or_high (dict_get rm kd)) eqn:Hc.
    + rewrite Hhasht, bind_Ok.
      destruct (IH ({[kt]} ∪ b)) as (b' & -> & Hb').
      exists b'. split; [done|]. intros k. rewrite Hb', elem_of_union,
        elem_of_singleton. split.
      * intros [[->|?]|(? & d' & kd' & ? & ? & ?)]; [right|by left|right].
        -- split; [done|]. exists d, kd. rewrite Hc. by split_and!; [left|..].
        -- split; [done|]. exists d', kd'. by split_and!; [right|..].
      * intros [?|(? & d' & kd' & [->|?]%elem_of_cons & ? & ?)];
          [by left; right | left; left; congruence |].
        right. split; [done|]. by exists d', kd'.
    + destruct (IH b) as (b' & -> & Hb').
      exists b'. split; [done|]. intros k. rewrite Hb'. split.
      * intros [?|(? & d' & kd' & ? & ? & ?)]; [by left|right].
        split; [done|]. exists d', kd'. by split_and!; [right|..].
      * intros [?|(? & d' & kd' & [->|?]%elem_of_cons & Hk & Hr)]; [by left| |].
        -- rewrite Hkd in Hk. injection Hk as <-. by rewrite Hc in Hr.
        -- right. split; [done|]. by exists d', kd'.
Qed.

Lemma find_blocked_spec rm tasks (b : gset key) :
  Forall well_typed tasks →
  ∃ b', find_blocked rm tasks b = Ok b' ∧
    ∀ k, k ∈ b' ↔
         k ∈ b ∨ ∃ t d kd, t ∈ tasks ∧ to_key (task_id t) = Some k ∧
                   d ∈ declared t ∧ to_key d = Some kd ∧
                   critical_or_high (dict_get rm kd).
Proof.
  intros Hwt. revert b. induction Hwt as [|t rest Ht _ IH]; intros b.
  - exists b. split; [done|]. intros k. split; [by left|].
    intros [?|(t & d & kd & ?%elem_of_nil & _)]; done.
  - cbn [find_blocked].
    pose proof (well_typed_declared _ Ht) as Hd.
    pose proof (well_typed_id _ Ht) as Hid.
    assert (∃ b1, (if truthy (get t "depends_on")
                   then mark_blocked rm (get t "task_id")
                          (deps_of (get t "depends_on")) b
                   else Ok b) = Ok b1 ∧
              ∀ k, k ∈ b1 ↔
                   k ∈ b ∨ (to_key (task_id t) = Some k ∧
                            ∃ d kd, d ∈ declared t ∧ to_key d = Some kd ∧
                                    critical_or_high (dict_get rm kd)))
      as (b1 & -> & Hb1).
    { unfold declared, task_id in *.
      destruct (truthy (get t "depends_on")).
      - by apply mark_blocked_spec.
      - exists b. split; [done|]. intros k. split; [by left|].
        intros [?|(_ & d & kd & ?%elem_of_nil & _)]; done. }
    rewrite bind_Ok. destruct (IH b1) as (b' & -> & Hb').
    exists b'. split; [done|]. intros k. rewrite Hb', Hb1. split.
    + intros [[?|(? & d & kd & ? & ? & ?)]|(t' & d & kd & ? & ? & ? & ? & ?)].
      * by left.
      * right. exists t, d, kd. by split_and!; [left|..].
      * right. exists t', d, kd. by split_and!; [right|..].
    + intros [?|(t' & d & kd & [->|?]%elem_of_cons & ? & ? & ? & ?)].
      * by left; left.
      * left; right. split; [done|]. by exists d, kd.
      * right. by exists t', d, kd.
Qed.

Lemma find_bottlenecks_spec (g : graph_t) k :
  k ∈ find_bottlenecks g ↔ ∃ l, (k, l) ∈ g ∧ (1 < length l)%nat.
Proof.
  induction g as [|[k0 l0] g IH]; cbn [find_bottlenecks].
  - split; [by intros ?%elem_of_nil | by intros (l & ?%elem_of_nil & _)].
  - destruct (1 <? length l0)%nat eqn:Hlen.
    + apply Nat.ltb_lt in Hlen. rewrite elem_of_cons, IH. split.
      * intros [->|(l & ? & ?)]; [exists l0 | exists l];
          (split; [|done]); [left | by right].
      * intros (l & [?|?]%elem_of_cons & ?); [left; congruence|right; eauto].
    + apply Nat.ltb_ge in Hlen. rewrite IH. split.
      * intros (l & ? & ?). exists l. split; [by right|done].
      * intros (l & [?|?]%elem_of_cons & ?); [simplify_eq; lia | eauto].
Qed.

(** ** The whole dependency analysis on well-typed tasks *)

Lemma analysis_spec now tasks :
  Forall well_typed tasks →
  ∃ g sm rm bl,
    build_dependency_graph now tasks = Ok (g, sm, rm) ∧
    analyze_cascading_risks now tasks = Ok (bl, find_bottlenecks g) ∧
    NoDup g.*1 ∧
    (∀ k, dict_get g k =
          if resolve tasks k is Some _ then Some (edges_to k tasks) else None) ∧
    (∀ k, dict_get rm k = resolve tasks k ≫= intrinsic_risk now) ∧
    (∀ k, k ∈ bl ↔
          ∃ t d kd, t ∈ tasks ∧ to_key (task_id t) = Some k ∧
            d ∈ declared t ∧ to_key d = Some kd ∧
            critical_or_high (dict_get rm kd)).
Proof.
  intros Hwt.
  destruct (init_maps_spec now tasks [] [] []
              (Forall_well_typed_classifiable _ Hwt)) as
    (g0 & sm & rm & Hinit & Hnd & Hg0 & Hrm); [apply NoDup_nil_2|].
  destruct (populate_spec tasks g0 Hwt) as (g & Hpop & Hkeys & Hg).
  destruct (find_blocked_spec rm tasks ∅ Hwt) as (b & Hb & Hbl).
  assert (build_dependency_graph now tasks = Ok (g, sm, rm)) as Hbuild.
  { unfold build_dependency_graph.
    eapply bind_eq; [exact Hinit|]. cbn beta iota.
    eapply bind_eq; [exact Hpop|]. done. }
  exists g, sm, rm, (elements b). split_and!.
  - done.
  - unfold analyze_cascading_risks.
    eapply bind_eq; [exact Hbuild|]. cbn beta iota.
    eapply bind_eq; [exact Hb|]. done.
  - by rewrite Hkeys.
  - intros k. rewrite Hg, Hg0. by destruct (resolve tasks k).
  - intros k. rewrite Hrm. by destruct (resolve tasks k).
  - intros k. rewrite elem_of_elements, Hbl. split; [|by right].
    by intros [?%not_elem_of_empty|?].
Qed.

(** The analysis returns on the well-typed sequences only. *)

Lemma bind_Ok_inv {A B} (m : result A) (f : A → result B) b :
  m ≫= f = Ok b → ∃ a, m = Ok a ∧ f a = Ok b.
Proof. destruct m as [a|e]; [by exists a | done]. Qed.

Lemma init_maps_Ok_inv now tasks st st' :
  init_maps now tasks st = Ok st' → Forall classifiable tasks.
Proof.
  revert st. induction tasks as [|t rest IH]; intros [[g sm] rm]; [constructor|].
  cbn [init_maps].
  intros (k & Hk & ([r days] & Hr & Hrest)%bind_Ok_inv)%bind_Ok_inv.
  constructor; [|by eapply IH].
  unfold classifiable, task_id, status_of, deadline_of.
  apply andb_True. split.
  - destruct (get t "task_id"); done.
  - revert Hr. unfold calculate_risk_level.
    destruct (get_or t "task_status" (PyStr "")) as [|s| | |b|]; try done; simpl.
    + destruct (is_done (lower s)); [done|].
      by destruct (get_or t "task_deadline" (PyStr "")).
    + by destruct (get_or t "task_deadline" (PyStr "")).
Qed.

Lemma populate_Ok_inv tasks g g' :
  populate tasks g = Ok g' → Forall deps_typed tasks.
Proof.
  revert g. induction tasks as [|t rest IH]; intros g; [constructor|].
  cbn [populate]. intros (g1 & Hg1 & Hrest)%bind_Ok_inv.
  constructor; [|by eapply IH].
  unfold deps_typed.
  destruct (get t "depends_on") as [| | |[|x l]| |[|x d]];
    simpl in *; rewrite ?orb_true_r; done.
Qed.

Lemma returns_only_on_well_typed now tasks r :
  analyze_cascading_risks now tasks = Ok r → Forall well_typed tasks.
Proof.
  unfold analyze_cascading_risks, build_dependency_graph.
  intros ([[g sm] rm] & Hb & _)%bind_Ok_inv.
  apply bind_Ok_inv in Hb as ([[g0 sm0] rm0] & Hinit%init_maps_Ok_inv & Hpop).
  apply bind_Ok_inv in Hpop as (g1 & Hpop%populate_Ok_inv & _).
  apply Forall_forall. intros t Ht.
  rewrite Forall_forall in Hinit, Hpop.
  unfold well_typed. apply andb_True. split; [by apply Hinit | by apply Hpop].
Qed.

(** ** One entry per declared edge at most *)

Lemma graph_size_set_nil (g : graph_t) k :
  (graph_size (dict_set g k []) ≤ graph_size g)%nat.
Proof.
  unfold graph_size. induction g as [|[k0 l0] g IH]; simpl; [lia|].
  case_decide; simpl; lia.
Qed.

Lemma graph_size_append (g : graph_t) k l x :
  dict_get g k = Some l →
  graph_size (dict_set g k (l ++ [x])) = S (graph_size g).
Proof.
  unfold graph_size. induction g as [|[k0 l0] g IH]; simpl; [done|].
  case_decide; simpl.
  - intros [= ->]. rewrite length_app. simpl. lia.
  - intros Hl. rewrite IH by done. lia.
Qed.

Lemma init_maps_size now tasks g sm rm g' sm' rm' :
  init_maps now tasks (g, sm, rm) = Ok (g', sm', rm') →
  (graph_size g' ≤ graph_size g)%nat.
Proof.
  revert g sm rm. induction tasks as [|t rest IH]; intros g sm rm.
  - by intros [= -> _ _].
  - cbn [init_maps].
    intros (k & _ & ([r days] & _ & Hrest)%bind_Ok_inv)%bind_Ok_inv.
    apply IH in Hrest. pose proof (graph_size_set_nil g k). lia.
Qed.

Lemma add_edges_size t_id deps g g' :
  add_edges t_id deps g = Ok g' →
  (graph_size g' ≤ graph_size g + length deps)%nat.
Proof.
  revert g. induction deps as [|d deps IH]; intros g.
  - intros [= ->]. simpl. lia.
  - cbn [add_edges]. intros (k & _ & H)%bind_Ok_inv.
    destruct (dict_get g k) as [l|] eqn:Hl.
    + apply IH in H. rewrite (graph_size_append g k l) in H by done. simpl. lia.
    + apply IH in H. simpl. lia.
Qed.

Lemma populate_size tasks g g' :
  populate tasks g = Ok g' →
  (graph_size g' ≤ graph_size g + declared_edges tasks)%nat.
Proof.
  unfold declared_edges.
  revert g. induction tasks as [|t rest IH]; intros g.
  - intros [= ->]. simpl. lia.
  - cbn [populate]. intros (g1 & Hg1 & Hrest)%bind_Ok_inv.
    apply IH in Hrest. simpl. unfold declared at 1.
    destruct (truthy (get t "depends_on")).
    + apply add_edges_size in Hg1. lia.
    + injection Hg1 as <-. simpl. lia.
Qed.

Lemma build_dependency_graph_size now tasks g sm rm :
  build_dependency_graph now tasks = Ok (g, sm, rm) →
  (graph_size g ≤ declared_edges tasks)%nat.
Proof.
  unfold build_dependency_graph.
  intros ([[g0 sm0] rm0] & Hinit & H)%bind_Ok_inv.
  apply bind_Ok_inv in H as (g1 & Hpop & [= <- _ _]).
  apply init_maps_size in Hinit. apply populate_size in Hpop.
  change (graph_size []) with 0%nat in Hinit. lia.
Qed.

(** ** The per-task loop *)

Lemma total_bump counts r : total (bump counts r) = S (total counts).
Proof. unfold total, bump. destruct r; repeat case_decide; try done; lia. Qed.

Lemma analyze_tasks_spec now bl bn tasks counts :
  Forall classifiable tasks →
  ∃ counts' analyzed,
    analyze_tasks now bl bn tasks counts = Ok (counts', analyzed) ∧
    total counts' = (total counts + length tasks)%nat ∧
    Forall2 (λ t a, ∃ r days, intrinsic now t = Ok (r, days) ∧
                      a = entry_of bl bn t r days) tasks analyzed.
Proof.
  intros Hwt. revert counts. induction Hwt as [|t rest Ht _ IH]; intros counts.
  - exists counts, []. split_and!; [done | simpl; lia | constructor].
  - destruct (classifiable_intrinsic now _ Ht) as (r & days & Hr).
    cbn [analyze_tasks].
    destruct (IH (bump counts (override (in_list (get t "task_id") bl) r)))
      as (counts' & analyzed & Heq & Htot & Hall).
    eexists counts', (entry_of bl bn t r days :: analyzed). split_and!.
    + eapply bind_eq; [exact Hr|]. cbn beta iota.
      eapply bind_eq; [exact Heq|]. done.
    + rewrite Htot, total_bump. simpl. lia.
    + constructor; [|done]. by exists r, days.
Qed.

Lemma handle_request_analysis_spec now tasks :
  Forall well_typed tasks →
  ∃ res bl bn,
    analyze_cascading_risks now tasks = Ok (bl, bn) ∧
    handle_request_analysis now tasks = Ok res ∧
    blocked_task_ids res = bl ∧ bottleneck_task_ids res = bn ∧
    total (risk_counts res) = length tasks ∧
    Forall2 (λ t a, ∃ r days, intrinsic now t = Ok (r, days) ∧
                      a = entry_of bl bn t r days) tasks (analyzed_tasks res).
Proof.
  intros Hwt.
  destruct (analysis_spec now tasks Hwt) as (g & sm & rm & bl & _ & Han & _).
  destruct (analyze_tasks_spec now bl (find_bottlenecks g) tasks (λ _, 0%nat)
              (Forall_well_typed_classifiable _ Hwt))
    as (counts & analyzed & Heq & Htot & Hall).
  exists (mkResult analyzed counts bl (find_bottlenecks g)), bl, (find_bottlenecks g).
  split_and!; try done.
  unfold handle_request_analysis.
  eapply bind_eq; [exact Han|]. cbn beta iota.
  eapply bind_eq; [exact Heq|]. done.
Qed.

(** ** Resolution of IDs and declared edges *)

Lemma resolve_Some tasks k p :
  resolve tasks k = Some p → p ∈ tasks ∧ to_key (task_id p) = Some k.
Proof.
  induction tasks as [|t rest IH]; cbn [resolve]; [done|].
  destruct (resolve rest k) as [q|].
  - intros [= ->]. destruct IH as [? ?]; [done|]. split; [by right | done].
  - unfold has_key. case_bool_decide; [|done].
    intros [= ->]. split; [by left | done].
Qed.

Lemma resolve_is_Some tasks k t :
  t ∈ tasks → to_key (task_id t) = Some k → is_Some (resolve tasks k).
Proof.
  induction tasks as [|t' rest IH]; [by intros ?%elem_of_nil|].
  intros [->|Hin]%elem_of_cons Hk; cbn [resolve].
  - destruct (resolve rest k); [eauto|].
    unfold has_key. rewrite bool_decide_eq_true_2 by done. eauto.
  - destruct (IH Hin Hk) as [p ->]. eauto.
Qed.

(** No declaration can name the ID [None]. *)
Lemma declared_not_None t d : d ∈ declared t → to_key d ≠ Some KNone.
Proof.
  unfold declared. destruct (get t "depends_on") as [|s|z|l|b|dd] eqn:E; simpl.
  - by intros ?%elem_of_nil.
  - destruct (negb _); [|by intros ?%elem_of_nil].
    intros (x & -> & _)%list_elem_of_fmap. done.
  - destruct (negb _); [|by intros ?%elem_of_nil].
    by intros ->%list_elem_of_singleton.
  - destruct (negb _); [|by intros ?%elem_of_nil].
    by intros ->%list_elem_of_singleton.
  - destruct (negb _); [|by intros ?%elem_of_nil].
    by intros ->%list_elem_of_singleton.
  - destruct (negb _); [|by intros ?%elem_of_nil].
    by intros ->%list_elem_of_singleton.
Qed.

Lemma edges_to_None tasks : edges_to KNone tasks = [].
Proof.
  unfold edges_to. induction tasks as [|t rest IH]; cbn [flat_map]; [done|].
  rewrite IH, app_nil_r. unfold edges_from.
  assert (∀ d, d ∈ declared t → to_key d ≠ Some KNone) as H
    by apply declared_not_None.
  induction (declared t) as [|d ds IHd]; cbn [flat_map]; [done|].
  unfold has_key at 1. rewrite bool_decide_eq_false_2.
  - apply IHd. intros d' Hd'. apply H. by right.
  - apply H. by left.
Qed.

Lemma edges_from_replicate k t :
  edges_from k t = replicate (declarations k t) (task_id t).
Proof.
  unfold edges_from, declarations.
  induction (declared t) as [|d ds IH]; [done|].
  cbn [flat_map]. rewrite IH, filter_cons.
  by destruct (has_key k d).
Qed.

Lemma edges_to_replicate k tasks :
  edges_to k tasks =
  flat_map (λ t, replicate (declarations k t) (task_id t)) tasks.
Proof.
  unfold edges_to. induction tasks as [|t rest IH]; [done|].
  cbn [flat_map]. by rewrite edges_from_replicate, IH.
Qed.


Lemma critical_or_high_resolve now tasks (rm : pydict risk) kd :
  dict_get rm kd = resolve tasks kd ≫= intrinsic_risk now →
  critical_or_high (dict_get rm kd) ↔
  ∃ p r, resolve tasks kd = Some p ∧ intrinsic_risk now p = Some r ∧
         (r = CRITICAL ∨ r = HIGH).
Proof.
  intros ->. destruct (resolve tasks kd) as [p|] eqn:Hp; simpl.
  - destruct (intrinsic_risk now p) as [r|] eqn:Hr; simpl.
    + split.
      * intros H. exists p, r. split_and!; [done..|]. destruct r; try done; auto.
      * intros (? & ? & [= <-] & Hr' & Hcase).
        rewrite Hr in Hr'. injection Hr' as <-. by destruct Hcase as [-> | ->].
    + split; [done|]. intros (? & ? & [= <-] & Hr' & _). congruence.
  - split; [done|]. by intros (? & ? & ? & _).
Qed.

(** ** The dependency field: the code against the specification *)

Lemma blank_is_space c : blank c = is_space c.
Proof. destruct c as [[] [] [] [] [] [] [] []]; vm_compute; reflexivity. Qed.

Lemma skip_blanks_lstrip s :
  list_ascii_of_string (lstrip s) = skip_blanks (list_ascii_of_string s).
Proof.
  induction s as [|c s IH]; [done|].
  cbn [lstrip list_ascii_of_string skip_blanks]. rewrite blank_is_space.
  by destruct (is_space c).
Qed.

Lemma skip_blanks_snoc l c :
  skip_blanks (l ++ [c]) =
  match skip_blanks l with
  | [] => if blank c then [] else [c]
  | r => r ++ [c]
  end.
Proof.
  induction l as [|a l IH]; cbn [app skip_blanks].
  - by destruct (blank c).
  - by destruct (blank a).
Qed.

Lemma rstrip_skip_blanks s :
  list_ascii_of_string (rstrip s) =
  rev (skip_blanks (rev (list_ascii_of_string s))).
Proof.
  induction s as [|c s IH]; [done|].
  cbn [rstrip list_ascii_of_string rev]. rewrite skip_blanks_snoc.
  destruct (skip_blanks (rev (list_ascii_of_string s))) as [|x xs].
  - destruct (rstrip s); [|discriminate IH].
    rewrite blank_is_space. by destruct (is_space c).
  - rewrite rev_unit, <- IH.
    destruct (rstrip s) as [|a r] eqn:E; [|done].
    cbn [rev list_ascii_of_string] in IH.
    by destruct (app_cons_not_nil (rev xs) [] x).
Qed.

Lemma trim_strip s : trim s = strip s.
Proof.
  unfold trim, strip.
  by rewrite <- skip_blanks_lstrip, <- rstrip_skip_blanks,
    string_of_list_ascii_of_string.
Qed.

Lemma str_app_nil (s : string) : s +:+ "" = s.
Proof.
  induction s as [|c s IH]; [done|].
  change (String c (s +:+ "") = String c s). by rewrite IH.
Qed.

Lemma str_app_snoc (a b : string) c :
  (a +:+ String c "") +:+ b = a +:+ String c b.
Proof.
  induction a as [|x a IH]; [done|].
  change (String x ((a +:+ String c "") +:+ b) = String x (a +:+ String c b)).
  by rewrite IH.
Qed.

Lemma split_not_nil sep s : split sep s ≠ [].
Proof.
  destruct s as [|c s]; [done|]. cbn [split].
  destruct (Ascii.eqb c sep); [done|]. by destruct (split sep s).
Qed.

Lemma fields_from_split current s :
  fields_from current s =
  match split "," s with
  | piece :: rest => (current +:+ piece) :: rest
  | [] => [current]
  end.
Proof.
  revert current. induction s as [|c s IH]; intros current.
  - cbn. by rewrite str_app_nil.
  - cbn [fields_from split]. case_bool_decide as Hc.
    + subst c. rewrite Ascii.eqb_refl, IH.
      pose proof (split_not_nil "," s).
      destruct (split "," s); [done|]. cbn. by rewrite str_app_nil.
    + apply Ascii.eqb_neq in Hc. rewrite Hc, IH.
      pose proof (split_not_nil "," s).
      destruct (split "," s); [done|]. cbn. by rewrite str_app_snoc.
Qed.

Lemma comma_fields_split s : comma_fields s = split "," s.
Proof.
  unfold comma_fields. rewrite fields_from_split.
  pose proof (split_not_nil "," s). by destruct (split "," s).
Qed.

(** On the values the edge loops can walk, the code reads the field
    as the specification does. *)
Lemma named_ids_deps_of v :
  negb (truthy v) || is_str v || hashable v →
  named_ids v = if truthy v then deps_of v else [].
Proof.
  destruct v as [|s|z|l|b|d]; cbn [named_ids truthy deps_of]; try done.
  - destruct s as [|c s]; [done|]. intros _. cbn [String.eqb negb].
    rewrite comma_fields_split. apply map_ext. intros f. by rewrite trim_strip.
  - by destruct z.
  - by destruct l.
  - by destruct b.
  - by destruct d.
Qed.

Lemma declared_named t : deps_typed t → declared t = named t.
Proof.
  unfold deps_typed, declared, named, get.
  destruct (t !! "depends_on") as [v|]; [|done]. cbn [default].
  intros H. by rewrite named_ids_deps_of.
Qed.

Lemma well_typed_named t : well_typed t → declared t = named t.
Proof. unfold well_typed. rewrite andb_True. intros [_ H]. by apply declared_named. Qed.

Lemma declarations_mentions k t :
  well_typed t → declarations k t = mentions k t.
Proof.
  intros H. unfold declarations, mentions. rewrite (well_typed_named t H).
  f_equal. apply list_filter_iff. intros d. unfold has_key.
  by rewrite bool_decide_spec.
Qed.

Lemma edges_to_mentions k tasks :
  Forall well_typed tasks →
  edges_to k tasks =
  flat_map (λ t, replicate (mentions k t) (task_id t)) tasks.
Proof.
  intros Hwt. rewrite edges_to_replicate.
  induction Hwt as [|t rest Ht _ IH]; [done|].
  cbn [flat_map]. by rewrite IH, declarations_mentions.
Qed.

Lemma length_edges_to_mentions k tasks :
  Forall well_typed tasks →
  length (edges_to k tasks) = sum_list_with (mentions k) tasks.
Proof.
  intros Hwt. rewrite edges_to_mentions by done.
  clear Hwt. induction tasks as [|t rest IH]; [done|].
  cbn [flat_map sum_list_with]. by rewrite length_app, length_replicate, IH.
Qed.

(** The graph has an entry exactly for the IDs of the tasks. *)
Lemma graph_entries (g : graph_t) tasks :
  (∀ k, dict_get g k =
        if resolve tasks k is Some _ then Some (edges_to k tasks) else None) →
  ∀ k, is_Some (dict_get g k) ↔
       ∃ t, t ∈ tasks ∧ to_key (task_id t) = Some k.
Proof.
  intros Hg k. rewrite Hg. split.
  - destruct (resolve tasks k) as [p|] eqn:Hp; [|by intros [? ?]].
    intros _. exists p. by apply resolve_Some.
  - intros (t & Hin & Hk).
    by destruct (resolve_is_Some tasks k t Hin Hk) as [p ->].
Qed.

(** Tasks without the field name nothing. *)
Lemma mentions_with_field k tasks :
  flat_map (λ t, replicate (mentions k t) (task_id t))
    (filter (λ t, is_Some (t !! "depends_on")) tasks) =
  flat_map (λ t, replicate (mentions k t) (task_id t)) tasks.
Proof.
  induction tasks as [|t rest IH]; [done|].
  rewrite filter_cons. case_decide as Hs; cbn [flat_map]; rewrite IH; [done|].
  unfold mentions, named.
  destruct (t !! "depends_on") eqn:E; [destruct Hs; eauto | done].
Qed.

(** ** Properties of the dependency analysis *)

(** C1. On every well-typed task sequence the analysis returns, and an
    ID is in the blocked set if and only if a task carrying it names,
    in its dependency field as the specification reads it, a
    predecessor ID that resolves to a task whose intrinsic tier, as
    [calculate_risk_level] returns it, is CRITICAL or HIGH.  Only the
    intrinsic tier of the direct predecessor counts: a predecessor of
    another tier never blocks, whatever is upstream of it. *)
Theorem blocked_iff_direct_predecessor_at_risk now tasks :
  Forall well_typed tasks →
  ∃ bl bn,
    analyze_cascading_risks now tasks = Ok (bl, bn) ∧
    ∀ k, k ∈ bl ↔
         ∃ t d kd p r,
           t ∈ tasks ∧ to_key (task_id t) = Some k ∧
           d ∈ named t ∧ to_key d = Some kd ∧
           resolve tasks kd = Some p ∧ intrinsic_risk now p = Some r ∧
           (r = CRITICAL ∨ r = HIGH).
Proof.
  intros Hwt.
  destruct (analysis_spec now tasks Hwt) as (g & sm & rm & bl & _ & Han & _ & _ & Hrm & Hbl).
  exists bl, (find_bottlenecks g). split; [done|].
  rewrite Forall_forall in Hwt.
  intros k. rewrite Hbl. split.
  - intros (t & d & kd & Hin & ? & Hd & ? & Hc).
    apply (critical_or_high_resolve now tasks) in Hc as (p & r & ? & ? & ?); [|done].
    rewrite (well_typed_named t (Hwt t Hin)) in Hd.
    by exists t, d, kd, p, r.
  - intros (t & d & kd & p & r & Hin & ? & Hd & ? & ? & ? & ?).
    rewrite <- (well_typed_named t (Hwt t Hin)) in Hd.
    exists t, d, kd. split_and!; [done..|].
    apply (critical_or_high_resolve now tasks); [done|]. by exists p, r.
Qed.

Lemma blocked_iff_direct_predecessor_at_risk_witness :
  Forall well_typed tasks_ABC ∧
  ∃ bl bn,
    analyze_cascading_risks clock0 tasks_ABC = Ok (bl, bn) ∧
    KStr "B" ∈ bl ∧ KStr "C" ∈ bl ∧ KStr "A" ∉ bl.
Proof.
  assert (Forall well_typed tasks_ABC) as H by (repeat constructor).
  split; [exact H|].
  destruct (blocked_iff_direct_predecessor_at_risk clock0 tasks_ABC H)
    as (bl & bn & Han & Hbl).
  exists bl, bn. split; [exact Han|].
  assert (named (mk_task "A" "todo" "2020-01-01" PyNone) = []) as HA
    by reflexivity.
  assert (named (mk_task "B" "todo" "2099-01-01" (PyStr "A")) = [PyStr "A"])
    as HB by reflexivity.
  assert (named (mk_task "C" "todo" "2099-01-01" (PyStr "A")) = [PyStr "A"])
    as HC by reflexivity.
  split_and!.
  - apply Hbl.
    exists (mk_task "B" "todo" "2099-01-01" (PyStr "A")), (PyStr "A"),
      (KStr "A"), (mk_task "A" "todo" "2020-01-01" PyNone), CRITICAL.
    split_and!; [| reflexivity | | reflexivity | reflexivity | reflexivity
                 | by left].
    + apply elem_of_cons. right. apply elem_of_cons. by left.
    + rewrite HB. apply elem_of_cons. by left.
  - apply Hbl.
    exists (mk_task "C" "todo" "2099-01-01" (PyStr "A")), (PyStr "A"),
      (KStr "A"), (mk_task "A" "todo" "2020-01-01" PyNone), CRITICAL.
    split_and!; [| reflexivity | | reflexivity | reflexivity | reflexivity
                 | by left].
    + apply elem_of_cons. right. apply elem_of_cons. right.
      apply elem_of_cons. by left.
    + rewrite HC. apply elem_of_cons. by left.
  - intros (t & d & kd & p & r & Ht & Hk & Hd & _)%Hbl.
    apply elem_of_cons in Ht as [->|Ht].
    { rewrite HA in Hd. by apply elem_of_nil in Hd. }
    apply elem_of_cons in Ht as [->|Ht]; [discriminate Hk|].
    apply elem_of_cons in Ht as [->|Ht]; [discriminate Hk|].
    by apply elem_of_nil in Ht.
Defined.

(** The scenario of the specification: A is overdue, B and C wait for
    A.  Both are blocked and relabelled, and A is the bottleneck. *)
Example scenario_ABC :
  analyze_cascading_risks clock0 tasks_ABC =
    Ok ([KStr "C"; KStr "B"], [KStr "A"]) ∧
  (map a_risk ∘ analyzed_tasks) <$> handle_request_analysis clock0 tasks_ABC =
    Ok [CRITICAL; BLOCKED; BLOCKED].
Proof. split; vm_compute; reflexivity. Qed.

(** One hop only: 3 waits for 2, which is blocked by the overdue 1 but
    is itself of tier LOW, so 3 is not blocked. *)
Example scenario_chain :
  analyze_cascading_risks clock0 tasks_chain = Ok ([KStr "2"], []) ∧
  (map a_risk ∘ analyzed_tasks) <$> handle_request_analysis clock0 tasks_chain =
    Ok [CRITICAL; BLOCKED; LOW].
Proof. split; vm_compute; reflexivity. Qed.



(** C10. The graph has an entry for every task ID, and the
    dependent-list of a predecessor holds the ID of each dependent once
    for every time the dependent names the predecessor in its
    dependency field, as the specification reads that field; so a
    predecessor that one task names twice or more is a bottleneck. *)
Theorem duplicate_declarations_make_a_bottleneck now tasks :
  Forall well_typed tasks →
  ∃ g sm rm bl bn,
    build_dependency_graph now tasks = Ok (g, sm, rm) ∧
    analyze_cascading_risks now tasks = Ok (bl, bn) ∧
    (∀ k, is_Some (dict_get g k) ↔
          ∃ t, t ∈ tasks ∧ to_key (task_id t) = Some k) ∧
    (∀ k dependents,
       dict_get g k = Some dependents →
       dependents =
         flat_map (λ t, replicate (mentions k t) (task_id t)) tasks) ∧
    (∀ k t, t ∈ tasks → is_Some (dict_get g k) →
            (2 ≤ mentions k t)%nat → k ∈ bn).
Proof.
  intros Hwt.
  destruct (analysis_spec now tasks Hwt) as (g & sm & rm & bl & Hb & Han & Hnd & Hg & _).
  pose proof (λ k, edges_to_mentions k tasks Hwt) as Hedges.
  exists g, sm, rm, bl, (find_bottlenecks g).
  split_and!; [done | done | by apply graph_entries | |].
  - intros k l. rewrite Hg. destruct (resolve tasks k); [|done].
    intros [= <-]. apply Hedges.
  - intros k t Hin [l Hl] Hdecl. apply find_bottlenecks_spec.
    exists l. split; [by apply dict_get_elem_of|].
    rewrite Hg in Hl. destruct (resolve tasks k); [|done].
    injection Hl as <-. rewrite Hedges.
    clear -Hin Hdecl. induction tasks as [|t' rest IH]; [by apply elem_of_nil in Hin|].
    cbn [flat_map]. rewrite length_app, length_replicate.
    apply elem_of_cons in Hin as [<-|Hin]; [lia|].
    specialize (IH Hin). lia.
Qed.

Lemma duplicate_declarations_make_a_bottleneck_witness :
  Forall well_typed tasks_dup ∧
  ∃ g sm rm bl bn,
    build_dependency_graph clock0 tasks_dup = Ok (g, sm, rm) ∧
    analyze_cascading_risks clock0 tasks_dup = Ok (bl, bn) ∧
    dict_get g (KStr "A") = Some [PyStr "B"; PyStr "B"] ∧
    KStr "A" ∈ bn.
Proof.
  assert (Forall well_typed tasks_dup) as H by (repeat constructor).
  split; [exact H|].
  destruct (duplicate_declarations_make_a_bottleneck clock0 tasks_dup H)
    as (g & sm & rm & bl & bn & Hb & Han & Hkeys & Hdeps & Hbn).
  exists g, sm, rm, bl, bn. split; [exact Hb|]. split; [exact Han|].
  assert (is_Some (dict_get g (KStr "A"))) as HA.
  { apply Hkeys. exists (mk_task "A" "todo" "2099-01-01" PyNone).
    split; [|reflexivity]. apply elem_of_cons. by left. }
  split.
  - destruct HA as [l Hl]. rewrite Hl. f_equal.
    exact (Hdeps (KStr "A") l Hl).
  - apply (Hbn (KStr "A") (mk_task "B" "todo" "2099-01-01" (PyStr "A, A")));
      [|exact HA|].
    + apply elem_of_cons. right. apply elem_of_cons. by left.
    + apply le_n.
Defined.

(** B declares A twice in the string "A, A": A's dependent-list is
    [B, B] and A is reported as a bottleneck. *)
Example scenario_dup :
  fst ∘ fst <$> build_dependency_graph clock0 tasks_dup =
    Ok [(KStr "A", [PyStr "B"; PyStr "B"]); (KStr "B", [])] ∧
  analyze_cascading_risks clock0 tasks_dup = Ok ([], [KStr "A"]).
Proof. split; vm_compute; reflexivity. Qed.

(** C9. Graph construction and both passes are structural recursions
    over the task list and over each task's declarations, so they return
    on every well-typed sequence, whatever cycles or self-dependencies
    it declares, and the graph holds at most one entry per declaration.
    For a pair of tasks that depend on each other and are intrinsically
    neither CRITICAL nor HIGH, each is the other's only dependent and
    the blocked set is empty. *)
Theorem cycles_terminate now tasks :
  Forall well_typed tasks →
  ∃ g sm rm bl bn,
    build_dependency_graph now tasks = Ok (g, sm, rm) ∧
    analyze_cascading_risks now tasks = Ok (bl, bn) ∧
    (graph_size g ≤ declared_edges tasks)%nat ∧
    ∀ a b ida idb ra rb,
      tasks = [a; b] → ida ≠ idb →
      task_id a = PyStr ida → task_id b = PyStr idb →
      declared a = [PyStr idb] → declared b = [PyStr ida] →
      intrinsic_risk now a = Some ra → intrinsic_risk now b = Some rb →
      ra ∉ [CRITICAL; HIGH] → rb ∉ [CRITICAL; HIGH] →
      dict_get g (KStr ida) = Some [PyStr idb] ∧
      dict_get g (KStr idb) = Some [PyStr ida] ∧
      bl = [].
Proof.
  intros Hwt.
  destruct (analysis_spec now tasks Hwt)
    as (g & sm & rm & bl & Hb & Han & _ & Hg & Hrm & Hbl).
  exists g, sm, rm, bl, (find_bottlenecks g).
  split_and!; [done | done | by eapply build_dependency_graph_size |].
  intros a b ida idb ra rb -> Hne Ha Hb' Hda Hdb Hra Hrb Hna Hnb.
  assert (resolve [a; b] (KStr ida) = Some a) as Hresa.
  { cbn [resolve]. unfold has_key. rewrite Ha, Hb'. simpl.
    rewrite bool_decide_eq_false_2 by congruence.
    by rewrite bool_decide_eq_true_2. }
  assert (resolve [a; b] (KStr idb) = Some b) as Hresb.
  { cbn [resolve]. unfold has_key. rewrite Hb'. simpl.
    by rewrite bool_decide_eq_true_2. }
  split_and!.
  - rewrite Hg, Hresa. unfold edges_to, edges_from. cbn [flat_map].
    rewrite Hda, Hdb, Hb'. cbn [flat_map]. unfold has_key. simpl.
    rewrite bool_decide_eq_false_2 by congruence.
    by rewrite bool_decide_eq_true_2.
  - rewrite Hg, Hresb. unfold edges_to, edges_from. cbn [flat_map].
    rewrite Hda, Hdb, Ha. cbn [flat_map]. unfold has_key. simpl.
    rewrite bool_decide_eq_true_2 by done.
    by rewrite bool_decide_eq_false_2 by congruence.
  - apply elem_of_nil_inv. intros k Hk. apply Hbl in Hk
      as (t & d & kd & Ht & _ & Hd & Hkd & Hc). revert Hc.
    rewrite Hrm.
    apply elem_of_cons in Ht as [->|Ht];
      [|apply list_elem_of_singleton in Ht as ->].
    + rewrite Hda in Hd. apply list_elem_of_singleton in Hd as ->.
      injection Hkd as <-. rewrite Hresb. simpl. rewrite Hrb.
      destruct rb; try done; destruct Hnb; by repeat constructor.
    + rewrite Hdb in Hd. apply list_elem_of_singleton in Hd as ->.
      injection Hkd as <-. rewrite Hresa. simpl. rewrite Hra.
      destruct ra; try done; destruct Hna; by repeat constructor.
Qed.

Lemma cycles_terminate_witness :
  Forall well_typed tasks_cycle ∧
  ∃ g sm rm bl bn,
    build_dependency_graph clock0 tasks_cycle = Ok (g, sm, rm) ∧
    analyze_cascading_risks clock0 tasks_cycle = Ok (bl, bn) ∧
    (graph_size g ≤ 2)%nat ∧
    dict_get g (KStr "A") = Some [PyStr "B"] ∧
    dict_get g (KStr "B") = Some [PyStr "A"] ∧
    bl = [].
Proof.
  assert (Forall well_typed tasks_cycle) as H by (repeat constructor).
  split; [exact H|].
  destruct (cycles_terminate clock0 tasks_cycle H)
    as (g & sm & rm & bl & bn & Hb & Han & Hsize & Hpair).
  exists g, sm, rm, bl, bn. split; [exact Hb|]. split; [exact Han|].
  split; [exact Hsize|].
  apply (Hpair (mk_task "A" "todo" "2099-01-01" (PyStr "B"))
               (mk_task "B" "todo" "2099-01-01" (PyStr "A"))
               "A"%string "B"%string LOW LOW);
    try reflexivity; try discriminate.
  - intros Hin. apply elem_of_cons in Hin as [Hin|Hin]; [discriminate|].
    apply list_elem_of_singleton in Hin. discriminate.
  - intros Hin. apply elem_of_cons in Hin as [Hin|Hin]; [discriminate|].
    apply list_elem_of_singleton in Hin. discriminate.
Defined.

(** The cyclic pair and a task that depends on itself, evaluated. *)
Example scenario_cycle :
  fst ∘ fst <$> build_dependency_graph clock0 tasks_cycle =
    Ok [(KStr "A", [PyStr "B"]); (KStr "B", [PyStr "A"])] ∧
  analyze_cascading_risks clock0 tasks_cycle = Ok ([], []) ∧
  fst ∘ fst <$> build_dependency_graph clock0
                  [mk_task "S" "todo" "2099-01-01" (PyStr "S")] =
    Ok [(KStr "S", [PyStr "S"])].
Proof. split_and!; vm_compute; reflexivity. Qed.

(** C2. With [depends_on] given as the list ["X", "Y"], graph
    construction raises [TypeError]: the list is wrapped as the single
    element of [deps] and then looked up in the graph, which hashes it.
    The string "X, Y" gives the edges X -> Z and Y -> Z. *)
Theorem list_depends_on_raises now :
  build_dependency_graph now tasks_list_deps = Raise TypeError ∧
  ∃ g sm rm,
    build_dependency_graph now tasks_str_deps = Ok (g, sm, rm) ∧
    dict_get g (KStr "X") = Some [PyStr "Z"] ∧
    dict_get g (KStr "Y") = Some [PyStr "Z"] ∧
    dict_get g (KStr "Z") = Some [].
Proof.
  split.
  - destruct (init_maps_spec now tasks_list_deps [] [] [])
      as (g0 & sm & rm & Hinit & _); [by repeat constructor | constructor |].
    unfold build_dependency_graph.
    eapply bind_eq; [exact Hinit|]. reflexivity.
  - destruct (analysis_spec now tasks_str_deps)
      as (g & sm & rm & bl & Hb & _ & _ & Hg & _); [by repeat constructor|].
    exists g, sm, rm. split; [done|].
    rewrite !Hg. split_and!; reflexivity.
Qed.

(** The same failure reaches the caller of the whole analysis, also
    for the one-element list of the list-format test. *)
Example list_depends_on_raises_everywhere :
  analyze_cascading_risks clock0 tasks_list_deps = Raise TypeError ∧
  handle_request_analysis clock0 tasks_list_deps = Raise TypeError ∧
  build_dependency_graph clock0
    [mk_task "X" "todo" "2030-01-01" PyNone;
     mk_task "Y" "todo" "2030-01-01" (PyList [PyStr "X"])] = Raise TypeError.
Proof. split_and!; vm_compute; reflexivity. Qed.

(** ** Characters and case *)

Lemma elem_of_all_ascii (c : ascii) : In c all_ascii.
Proof.
  unfold all_ascii. rewrite <- (ascii_nat_embedding c).
  apply in_map, in_seq. pose proof (nat_ascii_bounded c). lia.
Qed.

Lemma for_all_ascii (f : ascii → bool) :
  forallb f all_ascii = true → ∀ c, f c = true.
Proof. intros H c. eapply forallb_forall in H; [done | apply elem_of_all_ascii]. Qed.

Lemma lower_char_same_letter a b :
  lower_az b = true → Ascii.eqb (lower_char a) b = same_letter a b.
Proof.
  intros Hb.
  assert (forallb (λ a, forallb (λ b,
            implb (lower_az b)
              (Bool.eqb (Ascii.eqb (lower_char a) b) (same_letter a b)))
            all_ascii) all_ascii = true) as H by (vm_compute; reflexivity).
  pose proof (for_all_ascii _ (for_all_ascii _ H a) b) as Hab.
  cbv beta in Hab. rewrite Hb in Hab. simpl in Hab.
  by apply Bool.eqb_prop in Hab.
Qed.

Lemma lower_eq_ignore_case s w :
  all_lower_az w = true → lower s = w ↔ eq_ignore_case s w = true.
Proof.
  revert w. induction s as [|a s IH]; intros [|b w]; simpl; try done.
  intros [Hb Hw]%andb_true_iff.
  rewrite andb_true_iff, <- (IH w Hw), <- (lower_char_same_letter a b Hb).
  rewrite Ascii.eqb_eq. split; [by intros [= -> ->] | by intros [-> ->]].
Qed.

Lemma is_done_lower status : is_done (lower status) = true ↔ done_synonym status.
Proof.
  unfold is_done, done_synonym.
  rewrite bool_decide_eq_true, !elem_of_cons, elem_of_nil.
  rewrite <- !lower_eq_ignore_case by reflexivity. tauto.
Qed.

Lemma is_done_lower_false status :
  ¬ done_synonym status → is_done (lower status) = false.
Proof.
  intros H. destruct (is_done (lower status)) eqn:E; [|done].
  by apply is_done_lower in E.
Qed.

(** ** Parsing and day arithmetic *)

Lemma digit_range c v : digit c = Some v → 0 ≤ v ≤ 9.
Proof.
  unfold digit, between. destruct (_ && _) eqn:E; [|done].
  apply andb_true_iff in E as [?%N.leb_le ?%N.leb_le]. intros [= <-]. lia.
Qed.

Lemma digit_in_Some lo hi c v :
  digit c = Some v → lo ≤ v ≤ hi → digit_in lo hi c = Some v.
Proof.
  intros Hd [? ?]. unfold digit_in. rewrite Hd.
  by rewrite (proj2 (Z.leb_le lo v)), (proj2 (Z.leb_le v hi)).
Qed.

Lemma digit_in_None lo hi c v :
  digit c = Some v → ¬ (lo ≤ v ≤ hi) → digit_in lo hi c = None.
Proof.
  intros Hd Hn. unfold digit_in. rewrite Hd.
  destruct (Z.leb_spec lo v), (Z.leb_spec v hi); simpl; try done. lia.
Qed.

Lemma parse_month_two_digits a b q rest e f :
  digit a = Some e → digit b = Some f → is_dash q = true →
  1 ≤ 10 * e + f ≤ 12 →
  parse_month (String a (String b (String q rest))) = Some (10 * e + f, rest).
Proof.
  intros Ha Hb Hq Hm.
  pose proof (digit_range _ _ Ha). pose proof (digit_range _ _ Hb).
  unfold parse_month. rewrite Hq.
  destruct (decide (e = 1)) as [->|He].
  - rewrite (digit_in_Some 1 1 a 1), (digit_in_Some 0 2 b f) by (done || lia).
    done.
  - assert (e = 0) as -> by lia.
    rewrite (digit_in_None 1 1 a 0), (digit_in_Some 0 0 a 0),
      (digit_in_Some 1 9 b f) by (done || lia).
    done.
Qed.

Lemma parse_day_two_digits a b g h :
  digit a = Some g → digit b = Some h → 1 ≤ 10 * g + h ≤ 31 →
  parse_day (String a (String b EmptyString)) = Some (10 * g + h).
Proof.
  intros Ha Hb Hd.
  pose proof (digit_range _ _ Ha). pose proof (digit_range _ _ Hb).
  unfold parse_day.
  destruct (decide (g = 3)) as [->|?].
  { rewrite (digit_in_Some 3 3 a 3), (digit_in_Some 0 1 b h) by (done || lia).
    done. }
  rewrite (digit_in_None 3 3 a g) by (done || lia).
  destruct (decide (1 ≤ g)).
  { rewrite (digit_in_Some 1 2 a g) by (done || lia). by rewrite Hb. }
  assert (g = 0) as -> by lia.
  rewrite (digit_in_None 1 2 a 0), (digit_in_Some 0 0 a 0),
    (digit_in_Some 1 9 b h) by (done || lia).
  done.
Qed.

Lemma days_in_month_le y m : days_in_month y m ≤ 31.
Proof. unfold days_in_month. repeat case_match; lia. Qed.

(** Whatever the strict reading accepts, [strptime] accepts, as the
    same date at midnight. *)
Lemma strict_strptime s y m d :
  strict_yyyy_mm_dd s = Some (y, m, d) →
  strptime s = Some (mkDatetime y m d 0 0 0 0).
Proof.
  unfold strict_yyyy_mm_dd.
  destruct s as [|y1 [|y2 [|y3 [|y4 [|p [|m1 [|m2 [|q [|d1 [|d2 [|? ?]]]]]]]]]]];
    try done.
  destruct (digit y1) as [a|] eqn:Hy1; [|done].
  destruct (digit y2) as [b|] eqn:Hy2; [|done].
  destruct (digit y3) as [c|] eqn:Hy3; [|done].
  destruct (digit y4) as [dd|] eqn:Hy4; [|done].
  destruct (digit m1) as [e|] eqn:Hm1; [|done].
  destruct (digit m2) as [f|] eqn:Hm2; [|done].
  destruct (digit d1) as [g|] eqn:Hd1; [|done].
  destruct (digit d2) as [h|] eqn:Hd2; [|done].
  destruct (is_dash p && is_dash q && valid_date _ _ _) eqn:E; [|done].
  intros [= <- <- <-].
  apply andb_true_iff in E as [[Hp Hq]%andb_true_iff Hv].
  assert (1 ≤ 10 * e + f ≤ 12 ∧ 1 ≤ 10 * g + h ≤ 31) as [Hm Hd].
  { revert Hv. unfold valid_date. rewrite !andb_true_iff, !Z.leb_le.
    pose proof (days_in_month_le (1000 * a + 100 * b + 10 * c + dd) (10 * e + f)).
    lia. }
  unfold strptime. rewrite Hy1, Hy2, Hy3, Hy4, Hp.
  rewrite (parse_month_two_digits m1 m2 q _ e f) by done.
  rewrite (parse_day_two_digits d1 d2 g h) by done.
  by rewrite Hv.
Qed.

Lemma strptime_None_strict s : strptime s = None → strict_yyyy_mm_dd s = None.
Proof.
  intros H. destruct (strict_yyyy_mm_dd s) as [[[y m] d]|] eqn:E; [|done].
  apply strict_strptime in E. congruence.
Qed.

(** A parsed deadline is a calendar date at midnight. *)
Lemma strptime_midnight s t :
  strptime s = Some t →
  time_us t = 0 ∧ valid_date (year t) (month t) (day t) = true.
Proof.
  unfold strptime.
  destruct s as [|y1 [|y2 [|y3 [|y4 [|p rest]]]]]; try done.
  destruct (digit y1), (digit y2), (digit y3), (digit y4); try done.
  destruct (is_dash p); [|done].
  destruct (parse_month rest) as [[m rest']|]; [|done].
  destruct (parse_day rest') as [dd|]; [|done].
  destruct (valid_date _ m dd) eqn:Hv; [|done].
  intros [= <-]. split; [reflexivity | exact Hv].
Qed.

Lemma time_us_range t : valid_time t → 0 ≤ time_us t < day_us.
Proof. unfold valid_time, time_us, day_us. lia. Qed.

(** A deadline whose date is the day before today lies one to two
    days back, whatever the time of day. *)
Lemma sub_days_yesterday deadline now :
  time_us deadline = 0 → valid_time now →
  toordinal deadline = toordinal now - 1 →
  sub_days deadline now < 0.
Proof.
  intros Hmid Hnow%time_us_range Hord. unfold sub_days.
  rewrite Hmid, Hord. apply Z.div_lt_upper_bound; unfold day_us in *; lia.
Qed.

(** A task without deadline whose status is not a done-synonym is
    classified UNKNOWN with a day count of zero. *)
Lemma absent_deadline_unknown now (t : task) s :
  t !! "task_deadline" = None → status_of t = PyStr s → ¬ done_synonym s →
  intrinsic now t = Ok (UNKNOWN, 0).
Proof.
  intros Hd Hs Hn. unfold intrinsic, deadline_of, get_or, calculate_risk_level.
  rewrite Hd, Hs. simpl. by rewrite is_done_lower_false.
Qed.

(** ** Properties of the classifier *)

(** C5. For a status that is not a done-synonym and a deadline that
    parses, the result carries the day count [(deadline - now).days]
    and the tier the thresholds give in their order: below 0 CRITICAL,
    else below 1 HIGH, else below 3 MEDIUM, else LOW.  A deadline dated
    the day before today is CRITICAL with a negative day count. *)
Theorem thresholds_in_order now d status deadline :
  ¬ done_synonym status → strptime d = Some deadline →
  let days := sub_days deadline now in
  ∃ tier,
    calculate_risk_level now (PyStr d) (PyStr status) = Ok (tier, days) ∧
    (days < 0 → tier = CRITICAL) ∧
    (0 ≤ days < 1 → tier = HIGH) ∧
    (1 ≤ days < 3 → tier = MEDIUM) ∧
    (3 ≤ days → tier = LOW) ∧
    (valid_time now → toordinal deadline = toordinal now - 1 →
     tier = CRITICAL ∧ days < 0).
Proof.
  intros Hn Hp days.
  assert (valid_time now → toordinal deadline = toordinal now - 1 → days < 0)
    as Hyesterday.
  { intros. apply sub_days_yesterday; [|done..].
    by apply strptime_midnight in Hp as [? _]. }
  unfold calculate_risk_level. simpl.
  rewrite is_done_lower_false, Hp by done. fold days.
  destruct (Z.ltb_spec days 0); [|destruct (Z.ltb_spec days 1);
    [|destruct (Z.ltb_spec days 3)]];
    eexists; (split; [reflexivity|]); split_and!; intros; try done; try lia.
  all: specialize (Hyesterday ltac:(done) ltac:(done)); lia.
Qed.

Lemma thresholds_in_order_witness :
  ¬ done_synonym "todo" ∧
  strptime "2026-11-02" = Some (mkDatetime 2026 11 2 0 0 0 0) ∧
  ∃ tier,
    calculate_risk_level clock0 (PyStr "2026-11-02") (PyStr "todo") =
      Ok (tier, sub_days (mkDatetime 2026 11 2 0 0 0 0) clock0) ∧
    (sub_days (mkDatetime 2026 11 2 0 0 0 0) clock0 < 0 → tier = CRITICAL) ∧
    (0 ≤ sub_days (mkDatetime 2026 11 2 0 0 0 0) clock0 < 1 → tier = HIGH) ∧
    (1 ≤ sub_days (mkDatetime 2026 11 2 0 0 0 0) clock0 < 3 → tier = MEDIUM) ∧
    (3 ≤ sub_days (mkDatetime 2026 11 2 0 0 0 0) clock0 → tier = LOW) ∧
    (valid_time clock0 →
     toordinal (mkDatetime 2026 11 2 0 0 0 0) = toordinal clock0 - 1 →
     tier = CRITICAL ∧ sub_days (mkDatetime 2026 11 2 0 0 0 0) clock0 < 0).
Proof.
  assert (¬ done_synonym "todo") as Hn.
  { intros [H|H]; vm_compute in H; discriminate H. }
  split; [exact Hn|]. split; [reflexivity|].
  apply (thresholds_in_order clock0 "2026-11-02" "todo"
           (mkDatetime 2026 11 2 0 0 0 0) Hn).
  reflexivity.
Defined.

(** The thresholds at a fixed clock (3 November 2026, noon). *)
Example tiers_at_noon :
  map (λ d, calculate_risk_level clock0 (PyStr d) (PyStr "in_progress"))
    ["2026-11-02"; "2026-11-03"; "2026-11-04"; "2026-11-05"; "2026-11-06";
     "2026-11-07"]%string =
  [Ok (CRITICAL, -2); Ok (CRITICAL, -1); Ok (HIGH, 0); Ok (MEDIUM, 1);
   Ok (MEDIUM, 2); Ok (LOW, 3)].
Proof. vm_compute. reflexivity. Qed.

(** C6. A status equal to "done" or "completed" up to letter case
    gives [(COMPLETED, 0)] for every deadline value, be it a valid
    date, an empty or malformed string, or not a string at all: the
    deadline is not looked at. *)
Theorem done_is_completed now (deadline : pyval) status :
  done_synonym status →
  calculate_risk_level now deadline (PyStr status) = Ok (COMPLETED, 0).
Proof.
  intros H%is_done_lower. unfold calculate_risk_level. simpl. by rewrite H.
Qed.

Lemma done_is_completed_witness :
  done_synonym "ComPleTed" ∧
  calculate_risk_level clock0 (PyStr "not a date") (PyStr "ComPleTed") =
    Ok (COMPLETED, 0).
Proof.
  assert (done_synonym "ComPleTed") as H by (right; reflexivity).
  split; [exact H|].
  exact (done_is_completed clock0 (PyStr "not a date") "ComPleTed" H).
Defined.

(** C7, as the specification words it, fails: "2030-1-1" is not of
    the strict form YYYY-MM-DD, yet [strptime] accepts a month or a day
    of one digit and the task is classified by its day count. *)
Lemma lenient_deadline_is_classified :
  strict_yyyy_mm_dd "2030-1-1" = None ∧
  ¬ done_synonym "todo" ∧
  calculate_risk_level clock0 (PyStr "2030-1-1") (PyStr "todo") =
    Ok (LOW, 1154).
Proof.
  split_and!; [reflexivity | | reflexivity].
  intros [H|H]; vm_compute in H; discriminate H.
Qed.

(** C7, amended. For a status that is not a done-synonym and a
    deadline string that [strptime] rejects for the format [%Y-%m-%d],
    the result is the ordinary value [(UNKNOWN, 0)]; every such string
    also fails the strict reading of YYYY-MM-DD.  The empty string,
    which stands in for an absent deadline, is one of them. *)
Theorem rejected_deadline_is_unknown now d status :
  ¬ done_synonym status → strptime d = None →
  calculate_risk_level now (PyStr d) (PyStr status) = Ok (UNKNOWN, 0) ∧
  strict_yyyy_mm_dd d = None ∧
  calculate_risk_level now (PyStr "") (PyStr status) = Ok (UNKNOWN, 0).
Proof.
  intros Hn Hp. split_and!; [| by apply strptime_None_strict |].
  - unfold calculate_risk_level. simpl. by rewrite is_done_lower_false, Hp.
  - unfold calculate_risk_level. simpl. by rewrite is_done_lower_false.
Qed.

Lemma rejected_deadline_is_unknown_witness :
  ¬ done_synonym "todo" ∧ strptime "invalid-date" = None ∧
  calculate_risk_level clock0 (PyStr "invalid-date") (PyStr "todo") =
    Ok (UNKNOWN, 0) ∧
  strict_yyyy_mm_dd "invalid-date" = None ∧
  calculate_risk_level clock0 (PyStr "") (PyStr "todo") = Ok (UNKNOWN, 0).
Proof.
  assert (¬ done_synonym "todo") as Hn.
  { intros [H|H]; vm_compute in H; discriminate H. }
  split; [exact Hn|]. split; [reflexivity|].
  exact (rejected_deadline_is_unknown clock0 "invalid-date" "todo" Hn eq_refl).
Defined.

(** What [strptime] rejects and what it accepts beyond the strict
    form. *)
Example strptime_samples :
  map strptime [""; "invalid-date"; "2026-02-29"; "2026-13-01"; "0000-01-01";
                "2026-11-03 "; "26-11-03"; "2026/11/03"]%string =
    [None; None; None; None; None; None; None; None] ∧
  map strptime ["2030-1-1"; "2030-01- 5"; "2024-02-29"]%string =
    [Some (mkDatetime 2030 1 1 0 0 0 0); Some (mkDatetime 2030 1 5 0 0 0 0);
     Some (mkDatetime 2024 2 29 0 0 0 0)].
Proof. split; vm_compute; reflexivity. Qed.

(** ** Properties of the whole analysis *)

(** C3, as the specification words it, fails: a task whose status
    field is present and null makes the analysis raise
    [AttributeError] out of the first loop. *)
Lemma null_status_raises :
  handle_request_analysis clock0 [task_null_status] = Raise AttributeError.
Proof. vm_compute. reflexivity. Qed.

(** C3, amended. On every sequence of well-typed tasks (each field
    absent or of a type the code handles) the analysis returns a
    complete result: one record per task and a histogram summing to
    the number of tasks.  Missing fields degrade: without a deadline
    and without a done status the tier is UNKNOWN with a day count of
    zero; every task has an entry in the graph, and the dependent-lists
    of the graph are made of the tasks that have a [depends_on] field
    alone, each entered once for every time its field names the
    predecessor, so a task without the field adds no edge; and the
    tasks without an ID have an empty dependent-list. *)
Theorem analysis_returns_on_well_typed now tasks :
  Forall well_typed tasks →
  ∃ res g sm rm,
    handle_request_analysis now tasks = Ok res ∧
    build_dependency_graph now tasks = Ok (g, sm, rm) ∧
    length (analyzed_tasks res) = length tasks ∧
    total (risk_counts res) = length tasks ∧
    (∀ (t : task) s,
       t !! "task_deadline" = None → status_of t = PyStr s →
       ¬ done_synonym s → intrinsic now t = Ok (UNKNOWN, 0)) ∧
    (∀ (t : task) k, t ∈ tasks → to_key (task_id t) = Some k →
                     is_Some (dict_get g k)) ∧
    (∀ k dependents,
       dict_get g k = Some dependents →
       dependents =
         flat_map (λ t, replicate (mentions k t) (task_id t))
           (filter (λ t, is_Some (t !! "depends_on")) tasks)) ∧
    (∀ t : task, t ∈ tasks → t !! "task_id" = None →
                 dict_get g KNone = Some []).
Proof.
  intros Hwt.
  destruct (handle_request_analysis_spec now tasks Hwt)
    as (res & bl & bn & _ & Hres & _ & _ & Htot & Hall).
  destruct (analysis_spec now tasks Hwt) as (g & sm & rm & _ & Hb & _ & _ & Hg & _).
  exists res, g, sm, rm. split_and!; [done | done | | done | | | |].
  - symmetry. by eapply Forall2_length.
  - intros t s. apply absent_deadline_unknown.
  - intros t k Hin Hk. apply (graph_entries g tasks Hg). by exists t.
  - intros k l. rewrite Hg. destruct (resolve tasks k); [|done].
    intros [= <-]. by rewrite mentions_with_field, edges_to_mentions.
  - intros t Hin Hid. rewrite Hg, edges_to_None.
    destruct (resolve_is_Some tasks KNone t Hin) as [p ->]; [|done].
    unfold task_id, get. by rewrite Hid.
Qed.

Lemma analysis_returns_on_well_typed_witness :
  Forall well_typed tasks_bare ∧
  ∃ res g sm rm,
    handle_request_analysis clock0 tasks_bare = Ok res ∧
    build_dependency_graph clock0 tasks_bare = Ok (g, sm, rm) ∧
    length (analyzed_tasks res) = 3%nat ∧
    total (risk_counts res) = 3%nat ∧
    intrinsic clock0 ∅ = Ok (UNKNOWN, 0) ∧
    intrinsic clock0 task_bare = Ok (UNKNOWN, 0) ∧
    dict_get g (KStr "A") = Some [PyStr "B"] ∧
    dict_get g (KStr "B") = Some [] ∧
    dict_get g KNone = Some [].
Proof.
  assert (Forall well_typed tasks_bare) as H by (repeat constructor).
  split; [exact H|].
  destruct (analysis_returns_on_well_typed clock0 _ H)
    as (res & g & sm & rm & Hres & Hb & Hlen & Htot & Hunk & Hkeys & Hdeps
        & Hnone).
  assert (¬ done_synonym "") as Hnd.
  { intros [Hd|Hd]; vm_compute in Hd; discriminate Hd. }
  assert (task_bare ∈ tasks_bare) as HinA.
  { apply elem_of_cons. right. apply elem_of_cons. by left. }
  assert (mk_task "B" "todo" "2099-01-01" (PyStr "A") ∈ tasks_bare) as HinB.
  { apply elem_of_cons. right. apply elem_of_cons. right.
    apply elem_of_cons. by left. }
  exists res, g, sm, rm.
  split_and!; [exact Hres | exact Hb | exact Hlen | exact Htot | | | | |].
  - apply (Hunk ∅ ""%string); [reflexivity | reflexivity | exact Hnd].
  - apply (Hunk task_bare ""%string); [reflexivity | reflexivity | exact Hnd].
  - destruct (Hkeys task_bare (KStr "A") HinA eq_refl) as [l Hl].
    rewrite Hl. f_equal. exact (Hdeps (KStr "A") l Hl).
  - destruct (Hkeys _ (KStr "B") HinB eq_refl) as [l Hl].
    rewrite Hl. f_equal. exact (Hdeps (KStr "B") l Hl).
  - apply (Hnone ∅); [|reflexivity]. apply elem_of_cons. by left.
Defined.

(** A document with no field at all is analysed like any other. *)
Example scenario_empty_task :
  (map a_risk ∘ analyzed_tasks) <$> handle_request_analysis clock0 [∅] =
    Ok [UNKNOWN] ∧
  build_dependency_graph clock0 [∅] =
    Ok ([(KNone, [])], [(KNone, PyStr "todo")], [(KNone, UNKNOWN)]).
Proof. split; vm_compute; reflexivity. Qed.

(** C4. In the result, the tier of every task is its intrinsic tier,
    except that a task whose ID is in the blocked set and whose
    intrinsic tier is neither CRITICAL nor COMPLETED is relabelled
    BLOCKED; CRITICAL and COMPLETED are kept also inside the blocked
    set. *)
Theorem effective_tier now tasks :
  Forall well_typed tasks →
  ∃ res bn,
    handle_request_analysis now tasks = Ok res ∧
    analyze_cascading_risks now tasks = Ok (blocked_task_ids res, bn) ∧
    Forall2 (λ t a,
      ∃ r days,
        intrinsic now t = Ok (r, days) ∧ a_id a = task_id t ∧
        (in_blocked_set res t → r ≠ CRITICAL → r ≠ COMPLETED →
         a_risk a = BLOCKED) ∧
        (¬ in_blocked_set res t → a_risk a = r) ∧
        (r = CRITICAL ∨ r = COMPLETED → a_risk a = r))
      tasks (analyzed_tasks res).
Proof.
  intros Hwt.
  destruct (handle_request_analysis_spec now tasks Hwt)
    as (res & bl & bn & Han & Hres & <- & _ & _ & Hall).
  exists res, bn. split_and!; [done..|].
  eapply Forall2_impl; [exact Hall|].
  intros t a (r & days & Hr & ->). exists r, days.
  assert (in_list (task_id t) (blocked_task_ids res) = true ↔
          in_blocked_set res t) as Hin.
  { unfold in_list, in_blocked_set. destruct (to_key (task_id t)) as [k|].
    - rewrite bool_decide_eq_true. split; [by exists k|].
      by intros (k' & [= <-] & ?).
    - split; [done | by intros (? & ? & _)]. }
  split_and!; [done | done | | |]; unfold entry_of, override; simpl.
  - intros Hb%Hin ? ?. rewrite Hb. by destruct r.
  - intros Hb. destruct (in_list _ _); [|done]. destruct Hb. by apply Hin.
  - intros [-> | ->]; by destruct (in_list _ _).
Qed.

Lemma effective_tier_witness :
  Forall well_typed tasks_ABC ∧
  ∃ res bn,
    handle_request_analysis clock0 tasks_ABC = Ok res ∧
    analyze_cascading_risks clock0 tasks_ABC = Ok (blocked_task_ids res, bn) ∧
    Forall2 (λ t a,
      ∃ r days,
        intrinsic clock0 t = Ok (r, days) ∧ a_id a = task_id t ∧
        (in_blocked_set res t → r ≠ CRITICAL → r ≠ COMPLETED →
         a_risk a = BLOCKED) ∧
        (¬ in_blocked_set res t → a_risk a = r) ∧
        (r = CRITICAL ∨ r = COMPLETED → a_risk a = r))
      tasks_ABC (analyzed_tasks res).
Proof.
  assert (Forall well_typed tasks_ABC) as H by (repeat constructor).
  split; [exact H|].
  exact (effective_tier clock0 tasks_ABC H).
Defined.

(** A task that is both overdue and downstream of an overdue task
    stays CRITICAL, and a finished one stays COMPLETED. *)
Example scenario_override_yields :
  (map a_risk ∘ analyzed_tasks) <$> handle_request_analysis clock0
    [ mk_task "A" "todo" "2020-01-01" PyNone;
      mk_task "B" "todo" "2020-06-01" (PyStr "A");
      mk_task "C" "Done" "2099-01-01" (PyStr "A");
      mk_task "D" "todo" "nonsense" (PyStr "A") ] =
  Ok [CRITICAL; CRITICAL; COMPLETED; BLOCKED].
Proof. vm_compute. reflexivity. Qed.

(** * Further properties of the code *)

(** ** The classifier *)

Lemma sub_days_instant a b : sub_days a b = (instant a - instant b) / day_us.
Proof. unfold sub_days, instant. f_equal. lia. Qed.

Lemma classify_strings now d s :
  calculate_risk_level now (PyStr d) (PyStr s) =
  if is_done (lower s) then Ok (COMPLETED, 0)
  else match strptime d with
       | Some deadline =>
           let days := sub_days deadline now in
           if days <? 0 then Ok (CRITICAL, days)
           else if days <? 1 then Ok (HIGH, days)
           else if days <? 3 then Ok (MEDIUM, days)
           else Ok (LOW, days)
       | None => Ok (UNKNOWN, 0)
       end.
Proof. reflexivity. Qed.

(** X1. On strings the classifier always returns, never with the tier
    BLOCKED, and the tier and the day count agree: CRITICAL exactly for
    a negative count, MEDIUM for 1 and 2, LOW from 3 on, and a count of
    zero exactly for HIGH, COMPLETED and UNKNOWN. *)
Theorem tier_and_days_agree now d s :
  ∃ r days,
    calculate_risk_level now (PyStr d) (PyStr s) = Ok (r, days) ∧
    r ≠ BLOCKED ∧
    (r = CRITICAL ↔ days < 0) ∧
    (r = MEDIUM ↔ 1 ≤ days < 3) ∧
    (r = LOW ↔ 3 ≤ days) ∧
    (r = HIGH ∨ r = COMPLETED ∨ r = UNKNOWN ↔ days = 0).
Proof.
  rewrite classify_strings.
  assert (∀ r days,
            (r = COMPLETED ∧ days = 0) ∨ (r = UNKNOWN ∧ days = 0) ∨
            (r = CRITICAL ∧ days < 0) ∨ (r = HIGH ∧ days = 0) ∨
            (r = MEDIUM ∧ 1 ≤ days < 3) ∨ (r = LOW ∧ 3 ≤ days) →
            r ≠ BLOCKED ∧ (r = CRITICAL ↔ days < 0) ∧
            (r = MEDIUM ↔ 1 ≤ days < 3) ∧ (r = LOW ↔ 3 ≤ days) ∧
            (r = HIGH ∨ r = COMPLETED ∨ r = UNKNOWN ↔ days = 0)) as Hcases.
  { intros r days [[-> ->]|[[-> ->]|[[-> ?]|[[-> ->]|[[-> ?]|[-> ?]]]]]];
      split_and!; try done;
      (split; [intros Hr; try lia; try discriminate Hr;
               destruct Hr as [Hr|[Hr|Hr]]; discriminate Hr
              |intros Hd; try lia; auto]). }
  destruct (is_done (lower s)).
  { exists COMPLETED, 0. split; [done|]. apply Hcases. auto. }
  destruct (strptime d) as [deadline|].
  2:{ exists UNKNOWN, 0. split; [done|]. apply Hcases. auto. }
  cbv zeta. set (days := sub_days deadline now).
  destruct (Z.ltb_spec days 0); [|destruct (Z.ltb_spec days 1);
    [|destruct (Z.ltb_spec days 3)]];
    eexists _, days; (split; [reflexivity|]); apply Hcases.
  - auto.
  - do 3 right. left. split; [done|lia].
  - do 4 right. left. split; [done|lia].
  - do 5 right. split; [done|lia].
Qed.

(** X2. The classifier raises in two cases only: [AttributeError]
    exactly when the status is neither a string nor a [bytes], the two
    kinds of value with a [lower] method, and [TypeError] exactly when
    the deadline is not a string and the status is a [bytes] or a
    string other than a done-synonym. *)
Theorem classifier_raises_iff now deadline status :
  (calculate_risk_level now deadline status = Raise AttributeError ↔
   is_str status = false ∧ is_bytes status = false) ∧
  (calculate_risk_level now deadline status = Raise TypeError ↔
   is_str deadline = false ∧
   ((∃ s, status = PyStr s ∧ ¬ done_synonym s) ∨ ∃ b, status = PyBytes b)).
Proof.
  assert (∀ d, is_str d = false →
            match d with
            | PyStr d0 =>
                match strptime d0 with
                | Some dl =>
                    let days := sub_days dl now in
                    if days <? 0 then Ok (CRITICAL, days)
                    else if days <? 1 then Ok (HIGH, days)
                    else if days <? 3 then Ok (MEDIUM, days)
                    else Ok (LOW, days)
                | None => Ok (UNKNOWN, 0)
                end
            | _ => Raise TypeError
            end = Raise TypeError) as Hnot by (by intros []).
  assert (∀ d e, is_str d = true →
            match d with
            | PyStr d0 =>
                match strptime d0 with
                | Some dl =>
                    let days := sub_days dl now in
                    if days <? 0 then Ok (CRITICAL, days)
                    else if days <? 1 then Ok (HIGH, days)
                    else if days <? 3 then Ok (MEDIUM, days)
                    else Ok (LOW, days)
                | None => Ok (UNKNOWN, 0)
                end
            | _ => Raise TypeError
            end ≠ Raise e) as Hstr.
  { intros [|d0| | | |] e; try done. intros _.
    destruct (strptime d0); [cbv zeta; repeat case_match|]; done. }
  unfold calculate_risk_level.
  destruct status as [|s|z|l|b|dd]; simpl;
    try (split; [by split | split; [done|]];
         intros (_ & [(? & ? & _)|(? & ?)]); done).
  - destruct (is_done (lower s)) eqn:Hdone.
    { split; [split; [done | by intros [? _]]|]. split; [done|].
      intros (_ & [(s' & [= <-] & Hn)|(? & ?)]); [|done].
      destruct Hn. by apply is_done_lower. }
    assert (¬ done_synonym s) as Hn.
    { intros H%is_done_lower. congruence. }
    destruct (is_str deadline) eqn:Hd.
    + split; [split; [intros H; by apply Hstr in H | by intros [? _]]|].
      split; [intros H; by apply Hstr in H | by intros [? _]].
    + rewrite Hnot by done.
      split; [split; [done | by intros [? _]]|].
      split; [intros _; split; [done|]; left; by exists s | done].
  - destruct (is_str deadline) eqn:Hd.
    + split; [split; [intros H; by apply Hstr in H | by intros [_ ?]]|].
      split; [intros H; by apply Hstr in H | by intros [? _]].
    + rewrite Hnot by done.
      split; [split; [done | by intros [_ ?]]|].
      split; [intros _; split; [done|]; right; by exists b | done].
Qed.

(** X3. As time passes the day count of a task does not grow and its
    tier does not relax: for two clocks in order, the later one gives a
    count that is not larger and a tier that is at least as pressing,
    while COMPLETED and UNKNOWN stay as they are. *)
Theorem risk_escalates_with_time d s now1 now2 :
  instant now1 ≤ instant now2 →
  ∃ r1 days1 r2 days2,
    calculate_risk_level now1 (PyStr d) (PyStr s) = Ok (r1, days1) ∧
    calculate_risk_level now2 (PyStr d) (PyStr s) = Ok (r2, days2) ∧
    days2 ≤ days1 ∧ (urgency r1 ≤ urgency r2)%nat ∧
    (r1 = COMPLETED ∨ r1 = UNKNOWN ∨ r2 = COMPLETED ∨ r2 = UNKNOWN → r1 = r2).
Proof.
  intros Hle. rewrite !classify_strings.
  destruct (is_done (lower s)).
  { exists COMPLETED, 0, COMPLETED, 0. by split_and!. }
  destruct (strptime d) as [deadline|].
  2:{ exists UNKNOWN, 0, UNKNOWN, 0. by split_and!. }
  cbv zeta.
  assert (sub_days deadline now2 ≤ sub_days deadline now1) as Hd.
  { rewrite !sub_days_instant. apply Z.div_le_mono; [done|lia]. }
  set (d1 := sub_days deadline now1) in *.
  set (d2 := sub_days deadline now2) in *.
  destruct (Z.ltb_spec d1 0); [|destruct (Z.ltb_spec d1 1);
    [|destruct (Z.ltb_spec d1 3)]];
  (destruct (Z.ltb_spec d2 0); [|destruct (Z.ltb_spec d2 1);
    [|destruct (Z.ltb_spec d2 3)]]); try lia;
  eexists _, d1, _, d2; (split; [reflexivity|]); (split; [reflexivity|]);
  split_and!; simpl; try lia; intros [?|[?|[?|?]]]; done.
Qed.

Lemma risk_escalates_with_time_witness :
  instant clock0 ≤ instant (mkDatetime 2026 11 5 8 30 0 0) ∧
  ∃ r1 days1 r2 days2,
    calculate_risk_level clock0 (PyStr "2026-11-06") (PyStr "todo") =
      Ok (r1, days1) ∧
    calculate_risk_level (mkDatetime 2026 11 5 8 30 0 0)
      (PyStr "2026-11-06") (PyStr "todo") = Ok (r2, days2) ∧
    days2 ≤ days1 ∧ (urgency r1 ≤ urgency r2)%nat ∧
    (r1 = COMPLETED ∨ r1 = UNKNOWN ∨ r2 = COMPLETED ∨ r2 = UNKNOWN → r1 = r2).
Proof.
  assert (instant clock0 ≤ instant (mkDatetime 2026 11 5 8 30 0 0)) as H
    by (vm_compute; discriminate).
  split; [exact H|].
  exact (risk_escalates_with_time "2026-11-06" "todo" clock0 _ H).
Defined.

(** X4. A calendar date written strictly as YYYY-MM-DD is never left
    UNKNOWN: with a status other than a done-synonym the classifier
    returns the day count to that date at midnight, with one of the
    four deadline tiers. *)
Theorem strict_date_is_classified now s status y m d :
  ¬ done_synonym status → strict_yyyy_mm_dd s = Some (y, m, d) →
  ∃ tier,
    calculate_risk_level now (PyStr s) (PyStr status) =
      Ok (tier, sub_days (mkDatetime y m d 0 0 0 0) now) ∧
    tier ∈ [CRITICAL; HIGH; MEDIUM; LOW].
Proof.
  intros Hn Hs%strict_strptime. rewrite classify_strings.
  rewrite is_done_lower_false, Hs by done. cbv zeta.
  repeat case_match; eexists; (split; [reflexivity|]); by repeat constructor.
Qed.

Lemma strict_date_is_classified_witness :
  ¬ done_synonym "in_progress" ∧
  strict_yyyy_mm_dd "2024-02-29" = Some (2024, 2, 29) ∧
  ∃ tier,
    calculate_risk_level clock0 (PyStr "2024-02-29") (PyStr "in_progress") =
      Ok (tier, sub_days (mkDatetime 2024 2 29 0 0 0 0) clock0) ∧
    tier ∈ [CRITICAL; HIGH; MEDIUM; LOW].
Proof.
  assert (¬ done_synonym "in_progress") as Hn.
  { intros [H|H]; vm_compute in H; discriminate H. }
  split; [exact Hn|]. split; [reflexivity|].
  exact (strict_date_is_classified clock0 "2024-02-29" "in_progress"
           2024 2 29 Hn eq_refl).
Defined.

(** ** The dictionaries of [build_dependency_graph] *)

Lemma dict_set_keys_mem {V} (d : pydict V) k v :
  (dict_set d k v).*1 = if decide (k ∈ d.*1) then d.*1 else d.*1 ++ [k].
Proof.
  rewrite dict_set_keys. destruct (dict_get d k) eqn:Hg.
  - rewrite decide_True; [done|].
    destruct (decide (k ∈ d.*1)) as [|Hn]; [done|].
    apply dict_get_None in Hn. congruence.
  - apply dict_get_None in Hg. by rewrite decide_False.
Qed.

Lemma first_seen_acc (A : list key) k ks :
  let A' := if decide (k ∈ A) then A else A ++ [k] in
  A' ++ filter (λ x, x ∉ A') (first_seen ks) =
  A ++ filter (λ x, x ∉ A) (first_seen (k :: ks)).
Proof.
  cbn [first_seen]. rewrite filter_cons. cbv zeta.
  destruct (decide (k ∈ A)) as [Hin|Hin].
  - rewrite decide_False by (intros ?; done). f_equal.
    rewrite list_filter_filter. apply list_filter_iff.
    intros x. split; [|tauto]. intros Hx. split; [done|]. by intros ->.
  - rewrite decide_True by done. rewrite <- app_assoc. simpl. do 2 f_equal.
    rewrite list_filter_filter. apply list_filter_iff.
    intros x. rewrite not_elem_of_app, list_elem_of_singleton. tauto.
Qed.

Lemma filter_all {A} (P : A → Prop) `{∀ x, Decision (P x)} (l : list A) :
  (∀ x, P x) → filter P l = l.
Proof.
  intros HP. induction l as [|x l IH]; [done|].
  by rewrite filter_cons, decide_True, IH.
Qed.

Lemma task_keys_cons t rest :
  task_keys (t :: rest) =
  match to_key (task_id t) with
  | Some k => k :: task_keys rest
  | None => task_keys rest
  end.
Proof. reflexivity. Qed.

Lemma init_maps_keys now tasks g0 sm0 rm0 g sm rm :
  init_maps now tasks (g0, sm0, rm0) = Ok (g, sm, rm) →
  sm0.*1 = g0.*1 → rm0.*1 = g0.*1 →
  g.*1 = g0.*1 ++ filter (λ x, x ∉ g0.*1) (first_seen (task_keys tasks)) ∧
  sm.*1 = g.*1 ∧ rm.*1 = g.*1 ∧
  ∀ k, dict_get sm k =
       match resolve tasks k with
       | Some p => Some (recorded_status p)
       | None => dict_get sm0 k
       end.
Proof.
  revert g0 sm0 rm0. induction tasks as [|t rest IH]; intros g0 sm0 rm0.
  - intros [= <- <- <-] Hs Hr. simpl. rewrite app_nil_r. by split_and!.
  - cbn [init_maps].
    intros (k & Hk & ([r days] & _ & Hrest)%bind_Ok_inv)%bind_Ok_inv Hs Hr.
    assert (to_key (task_id t) = Some k) as Hkey.
    { unfold hash, task_id in *. by destruct (to_key (get t "task_id")) as [k'|];
        [injection Hk as -> |]. }
    apply IH in Hrest as (Hg & Hsm & Hrm & Hst).
    2,3: by rewrite !dict_set_keys_mem, ?Hs, ?Hr.
    split_and!; [|done..|].
    + rewrite Hg, dict_set_keys_mem, task_keys_cons, Hkey.
      apply first_seen_acc.
    + intros k'. rewrite Hst. cbn [resolve].
      destruct (resolve rest k'); [done|].
      rewrite dict_get_set. unfold has_key. rewrite Hkey.
      case_decide; subst.
      * by rewrite bool_decide_eq_true_2.
      * rewrite bool_decide_eq_false_2; [done | congruence].
Qed.

Lemma find_bottlenecks_filter (g : graph_t) (f : key → list pyval) :
  (∀ k l, (k, l) ∈ g → l = f k) →
  find_bottlenecks g = filter (λ k, (1 < length (f k))%nat) g.*1.
Proof.
  induction g as [|[k l] g IH]; intros H; [done|].
  cbn [find_bottlenecks]. rewrite fmap_cons, filter_cons. simpl.
  rewrite <- (H k l) by (by left).
  rewrite IH by (intros; apply H; by right).
  destruct (Nat.ltb_spec 1 (length l)).
  - by rewrite decide_True.
  - rewrite decide_False; [done | lia].
Qed.

Lemma elem_of_first_seen k ks : k ∈ first_seen ks ↔ k ∈ ks.
Proof.
  induction ks as [|k0 ks IH]; cbn [first_seen]; [done|].
  rewrite !elem_of_cons, list_elem_of_filter, IH.
  destruct (decide (k = k0)); tauto.
Qed.

Lemma NoDup_first_seen ks : NoDup (first_seen ks).
Proof.
  induction ks as [|k ks IH]; cbn [first_seen]; [constructor|].
  apply NoDup_cons. split; [|by apply NoDup_filter].
  rewrite list_elem_of_filter. tauto.
Qed.

Lemma build_dependency_graph_keys now tasks g sm rm :
  build_dependency_graph now tasks = Ok (g, sm, rm) →
  g.*1 = first_seen (task_keys tasks) ∧ sm.*1 = g.*1 ∧ rm.*1 = g.*1 ∧
  ∀ k, dict_get sm k = recorded_status <$> resolve tasks k.
Proof.
  unfold build_dependency_graph.
  intros ([[g0 sm0] rm0] & Hinit & H)%bind_Ok_inv.
  apply bind_Ok_inv in H as (g1 & Hpop & [= <- <- <-]).
  pose proof (init_maps_Ok_inv _ _ _ _ Hinit) as Hcl.
  apply init_maps_keys in Hinit as (Hg & Hsm & Hrm & Hst); [|done..].
  assert (g1.*1 = g0.*1) as Hkeys.
  { clear -Hpop. revert g0 Hpop. induction tasks as [|t rest IH]; intros g0.
    - by intros [= ->].
    - cbn [populate]. intros (g' & Hg' & Hrest)%bind_Ok_inv.
      rewrite (IH _ Hrest). clear -Hg'.
      destruct (truthy _); [|by injection Hg' as ->].
      revert g0 Hg'. induction (deps_of _) as [|d ds IHd]; intros g0.
      + by intros [= ->].
      + cbn [add_edges]. intros (k & _ & H)%bind_Ok_inv.
        destruct (dict_get g0 k) as [l|] eqn:Hl; [|by apply IHd].
        rewrite (IHd _ H), dict_set_keys. by rewrite Hl. }
  rewrite Hkeys. simpl in Hg. rewrite Hg.
  split_and!; [|congruence..|].
  - apply filter_all. intros x. apply not_elem_of_nil.
  - intros k. rewrite Hst. by destruct (resolve tasks k).
Qed.

(** X5. The three dictionaries of [build_dependency_graph] have the
    same keys in the same order: the IDs of the tasks in the order of
    their first appearance, each once. *)
Theorem dictionaries_share_ordered_keys now tasks :
  Forall well_typed tasks →
  ∃ g sm rm,
    build_dependency_graph now tasks = Ok (g, sm, rm) ∧
    g.*1 = first_seen (task_keys tasks) ∧
    sm.*1 = g.*1 ∧ rm.*1 = g.*1 ∧ NoDup g.*1 ∧
    ∀ k, k ∈ g.*1 ↔ ∃ t, t ∈ tasks ∧ to_key (task_id t) = Some k.
Proof.
  intros Hwt.
  destruct (analysis_spec now tasks Hwt) as (g & sm & rm & _ & Hb & _ & Hnd & _).
  destruct (build_dependency_graph_keys _ _ _ _ _ Hb) as (Hg & Hsm & Hrm & _).
  exists g, sm, rm. split_and!; [done..|].
  intros k. rewrite Hg, elem_of_first_seen. unfold task_keys.
  by rewrite list_elem_of_omap.
Qed.

Lemma dictionaries_share_ordered_keys_witness :
  Forall well_typed tasks_ABC ∧
  ∃ g sm rm,
    build_dependency_graph clock0 tasks_ABC = Ok (g, sm, rm) ∧
    g.*1 = first_seen (task_keys tasks_ABC) ∧
    sm.*1 = g.*1 ∧ rm.*1 = g.*1 ∧ NoDup g.*1 ∧
    ∀ k, k ∈ g.*1 ↔ ∃ t, t ∈ tasks_ABC ∧ to_key (task_id t) = Some k.
Proof.
  assert (Forall well_typed tasks_ABC) as H by (repeat constructor).
  split; [exact H|].
  exact (dictionaries_share_ordered_keys clock0 tasks_ABC H).
Defined.

(** X6. When several tasks carry the same ID the last one wins:
    [status_map] holds its status, "todo" when it has none, and
    [risk_map] holds its intrinsic tier.  An ID no task carries has no
    entry. *)
Theorem last_task_wins now tasks :
  Forall well_typed tasks →
  ∃ g sm rm,
    build_dependency_graph now tasks = Ok (g, sm, rm) ∧
    (∀ k, dict_get sm k = recorded_status <$> resolve tasks k) ∧
    (∀ k, dict_get rm k = resolve tasks k ≫= intrinsic_risk now) ∧
    (∀ k t1 t2 rest,
       tasks = t1 :: rest ++ [t2] →
       to_key (task_id t1) = Some k → to_key (task_id t2) = Some k →
       dict_get sm k = Some (recorded_status t2) ∧
       dict_get rm k = intrinsic_risk now t2).
Proof.
  intros Hwt.
  destruct (analysis_spec now tasks Hwt) as (g & sm & rm & _ & Hb & _ & _ & _ & Hrm & _).
  destruct (build_dependency_graph_keys _ _ _ _ _ Hb) as (_ & _ & _ & Hst).
  exists g, sm, rm. split_and!; [done..|].
  intros k t1 t2 rest -> _ Hk2.
  assert (resolve (t1 :: rest ++ [t2]) k = Some t2) as Hres.
  { change (t1 :: rest ++ [t2]) with ((t1 :: rest) ++ [t2]).
    induction (t1 :: rest) as [|t l IH]; cbn [resolve app].
    - unfold has_key. by rewrite bool_decide_eq_true_2.
    - by rewrite IH. }
  by rewrite Hst, Hrm, Hres.
Qed.

Lemma last_task_wins_witness :
  Forall well_typed
    [mk_task "A" "done" "2020-01-01" PyNone;
     mk_task "A" "todo" "2020-01-01" PyNone] ∧
  ∃ g sm rm,
    build_dependency_graph clock0
      [mk_task "A" "done" "2020-01-01" PyNone;
       mk_task "A" "todo" "2020-01-01" PyNone] = Ok (g, sm, rm) ∧
    dict_get sm (KStr "A") = Some (PyStr "todo") ∧
    dict_get rm (KStr "A") = Some CRITICAL.
Proof.
  assert (Forall well_typed
            [mk_task "A" "done" "2020-01-01" PyNone;
             mk_task "A" "todo" "2020-01-01" PyNone]) as H
    by (repeat constructor).
  split; [exact H|].
  destruct (last_task_wins clock0 _ H) as (g & sm & rm & Hb & _ & _ & Hlast).
  exists g, sm, rm. split; [exact Hb|].
  exact (Hlast (KStr "A") _ _ [] eq_refl eq_refl eq_refl).
Defined.

(** X7. The bottleneck list is the list of task IDs in the order of
    their first appearance, restricted to the IDs that the dependency
    fields of the sequence, as the specification reads them, name more
    than once in all; it has no duplicates. *)
Theorem bottlenecks_in_order_of_appearance now tasks :
  Forall well_typed tasks →
  ∃ bl bn,
    analyze_cascading_risks now tasks = Ok (bl, bn) ∧
    bn = filter (λ k, (1 < sum_list_with (mentions k) tasks)%nat)
           (first_seen (task_keys tasks)) ∧
    NoDup bn.
Proof.
  intros Hwt.
  destruct (analysis_spec now tasks Hwt)
    as (g & sm & rm & bl & Hb & Han & Hnd & Hg & _).
  destruct (build_dependency_graph_keys _ _ _ _ _ Hb) as (Hkeys & _).
  assert (find_bottlenecks g =
          filter (λ k, (1 < length (edges_to k tasks))%nat)
            (first_seen (task_keys tasks))) as Hbn.
  { rewrite <- Hkeys. apply find_bottlenecks_filter.
    intros k l Hin%dict_get_elem_of; [|done].
    rewrite Hg in Hin. destruct (resolve tasks k); [|done]. by injection Hin. }
  exists bl, (find_bottlenecks g). split_and!; [done| |].
  - rewrite Hbn. apply list_filter_iff. intros k.
    by rewrite length_edges_to_mentions.
  - rewrite Hbn. apply NoDup_filter, NoDup_first_seen.
Qed.

Lemma bottlenecks_in_order_of_appearance_witness :
  Forall well_typed tasks_ABC ∧
  ∃ bl bn,
    analyze_cascading_risks clock0 tasks_ABC = Ok (bl, bn) ∧
    bn = [KStr "A"].
Proof.
  assert (Forall well_typed tasks_ABC) as H by (repeat constructor).
  split; [exact H|].
  destruct (bottlenecks_in_order_of_appearance clock0 tasks_ABC H)
    as (bl & bn & Han & Hbn & _).
  exists bl, bn. split; [exact Han|].
  rewrite Hbn. vm_compute. reflexivity.
Defined.

(** ** Edges and references *)

Lemma in_keys_iff ks1 ks2 d :
  (∀ k, k ∈ ks1 ↔ k ∈ ks2) → in_keys ks1 d ↔ in_keys ks2 d.
Proof.
  intros H. unfold in_keys. destruct (to_key d); [|done].
  by rewrite !bool_decide_spec.
Qed.

Lemma add_edges_count t_id deps g g' :
  add_edges t_id deps g = Ok g' →
  g'.*1 = g.*1 ∧
  graph_size g' = (graph_size g + length (filter (in_keys g.*1) deps))%nat.
Proof.
  revert g. induction deps as [|d deps IH]; intros g.
  - intros [= ->]. simpl. split; [done|lia].
  - cbn [add_edges]. intros (k & Hk & H)%bind_Ok_inv.
    assert (to_key d = Some k) as Hkey.
    { unfold hash in Hk. by destruct (to_key d); [injection Hk as ->|]. }
    assert (in_keys g.*1 d ↔ k ∈ g.*1) as Hin.
    { unfold in_keys. rewrite Hkey. apply bool_decide_spec. }
    rewrite filter_cons.
    destruct (dict_get g k) as [l|] eqn:Hl.
    + apply IH in H as [Hkeys Hsize].
      rewrite dict_set_keys, Hl in Hkeys, Hsize.
      rewrite (graph_size_append g k l) in Hsize by done.
      split; [done|].
      rewrite decide_True; [simpl; lia|].
      apply Hin. destruct (decide (k ∈ g.*1)) as [|Hn]; [done|].
      apply dict_get_None in Hn. congruence.
    + apply IH in H as [Hkeys Hsize]. split; [done|].
      rewrite decide_False; [done|].
      rewrite Hin. by apply dict_get_None.
Qed.

Lemma populate_count tasks g g' :
  populate tasks g = Ok g' →
  g'.*1 = g.*1 ∧
  graph_size g' =
    (graph_size g +
     sum_list_with (λ t, length (filter (in_keys g.*1) (declared t))) tasks)%nat.
Proof.
  revert g. induction tasks as [|t rest IH]; intros g.
  - intros [= ->]. simpl. split; [done|lia].
  - cbn [populate]. intros (g1 & Hg1 & Hrest)%bind_Ok_inv.
    apply IH in Hrest as [Hkeys Hsize].
    assert (g1.*1 = g.*1 ∧
            graph_size g1 =
              (graph_size g + length (filter (in_keys g.*1) (declared t)))%nat)
      as [Hk1 Hs1].
    { unfold declared. destruct (truthy (get t "depends_on")).
      - by apply add_edges_count in Hg1.
      - injection Hg1 as <-. simpl. split; [done|lia]. }
    rewrite Hk1 in Hkeys, Hsize. split; [done|]. simpl. lia.
Qed.

Lemma sum_list_with_eq {A} (f h : A → nat) (l : list A) :
  (∀ x, f x = h x) → sum_list_with f l = sum_list_with h l.
Proof. intros H. induction l as [|x l IH]; simpl; [done|]. by rewrite H, IH. Qed.

Lemma elem_of_flat_map {A B} (f : A → list B) (l : list A) (y : B) :
  y ∈ flat_map f l ↔ ∃ x, x ∈ l ∧ y ∈ f x.
Proof.
  induction l as [|a l IH]; cbn [flat_map].
  - split; [by intros ?%elem_of_nil | by intros (? & ?%elem_of_nil & _)].
  - rewrite elem_of_app, IH. split.
    + intros [?|(x & ? & ?)]; [exists a | exists x]; (split; [|done]);
        [by left | by right].
    + intros (x & [->|?]%elem_of_cons & ?); [by left | right; by exists x].
Qed.

Lemma elem_of_edges_to v k tasks :
  v ∈ edges_to k tasks ↔
  ∃ t d, t ∈ tasks ∧ v = task_id t ∧ d ∈ declared t ∧ to_key d = Some k.
Proof.
  unfold edges_to, edges_from. rewrite elem_of_flat_map. split.
  - intros (t & Ht & (d & Hd & Hv)%elem_of_flat_map).
    unfold has_key in Hv. case_bool_decide; [|by apply elem_of_nil in Hv].
    apply list_elem_of_singleton in Hv. by exists t, d.
  - intros (t & d & Ht & -> & Hd & Hk). exists t. split; [done|].
    apply elem_of_flat_map. exists d. split; [done|].
    unfold has_key. rewrite bool_decide_eq_true_2 by done. by left.
Qed.

(** X8. A declaration that names no task of the sequence is ignored:
    the graph has no key for an ID no task carries, and the
    dependent-lists hold exactly one entry for each declaration that
    names the ID of some task. *)
Theorem unknown_references_are_ignored now tasks :
  Forall well_typed tasks →
  ∃ g sm rm,
    build_dependency_graph now tasks = Ok (g, sm, rm) ∧
    graph_size g =
      sum_list_with (λ t, length (filter (known tasks) (declared t))) tasks ∧
    (∀ k, (∀ t, t ∈ tasks → to_key (task_id t) ≠ Some k) →
          dict_get g k = None).
Proof.
  intros Hwt.
  destruct (analysis_spec now tasks Hwt)
    as (g & sm & rm & _ & Hb & _ & _ & Hg & _).
  exists g, sm, rm. split; [done|]. split.
  - destruct (build_dependency_graph_keys _ _ _ _ _ Hb) as (Hkeys & _).
    revert Hb. unfold build_dependency_graph.
    intros ([[g0 sm0] rm0] & Hinit & H)%bind_Ok_inv.
    apply bind_Ok_inv in H as (g1 & Hpop & [= -> _ _]).
    apply init_maps_size in Hinit. change (graph_size []) with 0%nat in Hinit.
    apply populate_count in Hpop as [Hk Hsize].
    rewrite Hsize. assert (graph_size g0 = 0%nat) as -> by lia. simpl.
    apply sum_list_with_eq. intros t. f_equal. apply list_filter_iff.
    intros d. unfold known. apply in_keys_iff. intros k.
    by rewrite <- Hk, Hkeys, elem_of_first_seen.
  - intros k Hk. rewrite Hg.
    destruct (resolve tasks k) as [p|] eqn:Hp; [|done].
    apply resolve_Some in Hp as [Hin Hkey]. by destruct (Hk p Hin).
Qed.

Lemma unknown_references_are_ignored_witness :
  Forall well_typed
    [mk_task "A" "todo" "2099-01-01" PyNone;
     mk_task "B" "todo" "2099-01-01" (PyStr "A, GHOST")] ∧
  ∃ g sm rm,
    build_dependency_graph clock0
      [mk_task "A" "todo" "2099-01-01" PyNone;
       mk_task "B" "todo" "2099-01-01" (PyStr "A, GHOST")] = Ok (g, sm, rm) ∧
    graph_size g = 1%nat ∧
    dict_get g (KStr "GHOST") = None.
Proof.
  assert (Forall well_typed
            [mk_task "A" "todo" "2099-01-01" PyNone;
             mk_task "B" "todo" "2099-01-01" (PyStr "A, GHOST")]) as H
    by (repeat constructor).
  split; [exact H|].
  destruct (unknown_references_are_ignored clock0 _ H)
    as (g & sm & rm & Hb & Hsize & Hnone).
  exists g, sm, rm. split; [exact Hb|]. split; [exact Hsize|].
  apply Hnone. intros t Ht.
  apply elem_of_cons in Ht as [->|Ht]; [discriminate|].
  apply list_elem_of_singleton in Ht as ->. discriminate.
Defined.

(** X9. The blocked set is what the graph and the tiers say together:
    an ID is blocked if and only if it stands in the dependent-list of
    some ID whose tier in [risk_map] is CRITICAL or HIGH. *)
Theorem blocked_are_dependents_of_at_risk now tasks :
  Forall well_typed tasks →
  ∃ g sm rm bl bn,
    build_dependency_graph now tasks = Ok (g, sm, rm) ∧
    analyze_cascading_risks now tasks = Ok (bl, bn) ∧
    ∀ k, k ∈ bl ↔
         ∃ kd dependents v,
           dict_get g kd = Some dependents ∧ v ∈ dependents ∧
           to_key v = Some k ∧ critical_or_high (dict_get rm kd).
Proof.
  intros Hwt.
  destruct (analysis_spec now tasks Hwt)
    as (g & sm & rm & bl & Hb & Han & _ & Hg & Hrm & Hbl).
  exists g, sm, rm, bl, (find_bottlenecks g). split_and!; [done..|].
  intros k. rewrite Hbl. split.
  - intros (t & d & kd & Ht & Hk & Hd & Hkd & Hc).
    exists kd, (edges_to kd tasks), (task_id t). split_and!; [|..|done|done].
    + rewrite Hg. rewrite Hrm in Hc. by destruct (resolve tasks kd).
    + apply elem_of_edges_to. by exists t, d.
  - intros (kd & l & v & Hl & Hv & Hk & Hc).
    rewrite Hg in Hl. destruct (resolve tasks kd); [|done].
    injection Hl as <-. apply elem_of_edges_to in Hv as (t & d & ? & -> & ? & ?).
    by exists t, d, kd.
Qed.

Lemma blocked_are_dependents_of_at_risk_witness :
  Forall well_typed tasks_chain ∧
  ∃ g sm rm bl bn,
    build_dependency_graph clock0 tasks_chain = Ok (g, sm, rm) ∧
    analyze_cascading_risks clock0 tasks_chain = Ok (bl, bn) ∧
    ∀ k, k ∈ bl ↔
         ∃ kd dependents v,
           dict_get g kd = Some dependents ∧ v ∈ dependents ∧
           to_key v = Some k ∧ critical_or_high (dict_get rm kd).
Proof.
  assert (Forall well_typed tasks_chain) as H by (repeat constructor).
  split; [exact H|].
  exact (blocked_are_dependents_of_at_risk clock0 tasks_chain H).
Defined.

Lemma length_task_keys tasks : (length (task_keys tasks) ≤ length tasks)%nat.
Proof.
  induction tasks as [|t rest IH]; [done|].
  rewrite task_keys_cons. destruct (to_key (task_id t)); simpl; lia.
Qed.

Lemma analyze_cascading_risks_NoDup now tasks bl bn :
  analyze_cascading_risks now tasks = Ok (bl, bn) → NoDup bl.
Proof.
  unfold analyze_cascading_risks.
  intros ([[g sm] rm] & _ & (b & _ & [= <- _])%bind_Ok_inv)%bind_Ok_inv.
  apply NoDup_elements.
Qed.

(** X10. The blocked list names each blocked ID once, every blocked
    ID is the ID of a task that declares a predecessor, and so the list
    is not longer than the task sequence. *)
Theorem blocked_ids_are_task_ids now tasks :
  Forall well_typed tasks →
  ∃ bl bn,
    analyze_cascading_risks now tasks = Ok (bl, bn) ∧
    NoDup bl ∧
    (∀ k, k ∈ bl →
          ∃ t, t ∈ tasks ∧ to_key (task_id t) = Some k ∧ declared t ≠ []) ∧
    (length bl ≤ length tasks)%nat.
Proof.
  intros Hwt.
  destruct (analysis_spec now tasks Hwt)
    as (g & sm & rm & bl & _ & Han & _ & _ & _ & Hbl).
  pose proof (analyze_cascading_risks_NoDup _ _ _ _ Han) as Hnd.
  assert (∀ k, k ∈ bl →
            ∃ t, t ∈ tasks ∧ to_key (task_id t) = Some k ∧ declared t ≠ [])
    as Hids.
  { intros k (t & d & kd & Ht & Hk & Hd & _)%Hbl. exists t.
    split_and!; [done..|]. intros E. rewrite E in Hd. by apply elem_of_nil in Hd. }
  exists bl, (find_bottlenecks g). split_and!; [done..|].
  etrans; [|apply length_task_keys].
  apply submseteq_length, NoDup_submseteq; [done|].
  intros k (t & Ht & Hk & _)%Hids. apply list_elem_of_omap. by exists t.
Qed.

Lemma blocked_ids_are_task_ids_witness :
  Forall well_typed tasks_ABC ∧
  ∃ bl bn,
    analyze_cascading_risks clock0 tasks_ABC = Ok (bl, bn) ∧
    NoDup bl ∧
    (∀ k, k ∈ bl →
          ∃ t, t ∈ tasks_ABC ∧ to_key (task_id t) = Some k ∧
               declared t ≠ []) ∧
    (length bl ≤ length tasks_ABC)%nat.
Proof.
  assert (Forall well_typed tasks_ABC) as H by (repeat constructor).
  split; [exact H|].
  exact (blocked_ids_are_task_ids clock0 tasks_ABC H).
Defined.

(** ** The order of the tasks *)

Lemma resolve_unique tasks k p :
  NoDup (task_keys tasks) → p ∈ tasks → to_key (task_id p) = Some k →
  resolve tasks k = Some p.
Proof.
  induction tasks as [|t rest IH]; [by intros _ ?%elem_of_nil|].
  rewrite task_keys_cons. intros Hnd [->|Hin]%elem_of_cons Hk; cbn [resolve].
  - rewrite Hk in Hnd. apply NoDup_cons in Hnd as [Hnot _].
    destruct (resolve rest k) as [q|] eqn:Hq.
    + apply resolve_Some in Hq as [? ?]. destruct Hnot.
      apply list_elem_of_omap. by exists q.
    + unfold has_key. by rewrite bool_decide_eq_true_2.
  - rewrite IH; [done| |done..].
    destruct (to_key (task_id t)); [by apply NoDup_cons in Hnd as [_ ?]|done].
Qed.

Lemma resolve_Permutation tasks tasks' k :
  NoDup (task_keys tasks) → tasks ≡ₚ tasks' →
  resolve tasks k = resolve tasks' k.
Proof.
  intros Hnd Hp.
  assert (NoDup (task_keys tasks')) as Hnd'.
  { unfold task_keys. by rewrite <- Hp. }
  destruct (resolve tasks k) as [p|] eqn:E.
  - apply resolve_Some in E as [Hin Hk]. symmetry.
    apply resolve_unique; [done| |done]. by rewrite <- Hp.
  - destruct (resolve tasks' k) as [p|] eqn:E'; [|done].
    apply resolve_Some in E' as [Hin Hk]. rewrite <- Hp in Hin.
    rewrite (resolve_unique tasks k p) in E; done.
Qed.

Lemma length_edges_to k tasks :
  length (edges_to k tasks) = sum_list_with (declarations k) tasks.
Proof.
  rewrite edges_to_replicate. induction tasks as [|t rest IH]; [done|].
  cbn [flat_map]. rewrite length_app, length_replicate, IH. done.
Qed.

(** X11. With unique task IDs the order of the tasks does not matter:
    the analysis of a reordered sequence returns the same blocked IDs
    and the same bottleneck IDs, as lists up to their order. *)
Theorem order_of_tasks_is_irrelevant now tasks tasks' :
  NoDup (task_keys tasks) → tasks ≡ₚ tasks' → Forall well_typed tasks →
  ∃ bl bn bl' bn',
    analyze_cascading_risks now tasks = Ok (bl, bn) ∧
    analyze_cascading_risks now tasks' = Ok (bl', bn') ∧
    bl ≡ₚ bl' ∧ bn ≡ₚ bn'.
Proof.
  intros Hnd Hp Hwt.
  assert (Forall well_typed tasks') as Hwt' by (by rewrite <- Hp).
  destruct (analysis_spec now tasks Hwt)
    as (g & sm & rm & bl & _ & Han & Hndg & Hg & Hrm & Hbl).
  destruct (analysis_spec now tasks' Hwt')
    as (g' & sm' & rm' & bl' & _ & Han' & Hndg' & Hg' & Hrm' & Hbl').
  exists bl, (find_bottlenecks g), bl', (find_bottlenecks g').
  split_and!; [done..| |].
  - apply NoDup_Permutation;
      [by eapply analyze_cascading_risks_NoDup..|].
    intros k. rewrite Hbl, Hbl'. setoid_rewrite Hrm. setoid_rewrite Hrm'.
    setoid_rewrite (resolve_Permutation tasks tasks' _ Hnd Hp).
    by setoid_rewrite Hp.
  - assert (∀ g0 : graph_t, NoDup g0.*1 → NoDup (find_bottlenecks g0)) as Hbn.
    { intros g0 H0.
      rewrite (find_bottlenecks_filter g0
                 (λ k, default [] (dict_get g0 k))).
      - by apply NoDup_filter.
      - intros k l Hin%dict_get_elem_of; [|done]. by rewrite Hin. }
    apply NoDup_Permutation; [by apply Hbn..|].
    intros k. rewrite !find_bottlenecks_spec.
    setoid_rewrite (dict_get_elem_of g k _ Hndg).
    setoid_rewrite (dict_get_elem_of g' k _ Hndg').
    rewrite Hg, Hg', <- (resolve_Permutation tasks tasks' k Hnd Hp).
    destruct (resolve tasks k).
    + assert (length (edges_to k tasks) = length (edges_to k tasks')) as Hlen.
      { rewrite !length_edges_to. by rewrite Hp. }
      split; intros (l & [= <-] & ?); eexists; (split; [done|]); lia.
    + split; by intros (? & ? & _).
Qed.

Lemma order_of_tasks_is_irrelevant_witness :
  NoDup (task_keys tasks_ABC) ∧ tasks_ABC ≡ₚ reverse tasks_ABC ∧
  Forall well_typed tasks_ABC ∧
  ∃ bl bn bl' bn',
    analyze_cascading_risks clock0 tasks_ABC = Ok (bl, bn) ∧
    analyze_cascading_risks clock0 (reverse tasks_ABC) = Ok (bl', bn') ∧
    bl ≡ₚ bl' ∧ bn ≡ₚ bn'.
Proof.
  assert (NoDup (task_keys tasks_ABC)) as Hnd.
  { apply (bool_decide_unpack (NoDup (task_keys tasks_ABC))).
    vm_compute. exact I. }
  assert (tasks_ABC ≡ₚ reverse tasks_ABC) as Hp
    by (symmetry; apply reverse_Permutation).
  assert (Forall well_typed tasks_ABC) as H by (repeat constructor).
  split; [exact Hnd|]. split; [exact Hp|]. split; [exact H|].
  exact (order_of_tasks_is_irrelevant clock0 _ _ Hnd Hp H).
Defined.

(** ** When the analysis raises *)

(** X12. The analysis returns exactly on the well-typed sequences:
    [analyze_cascading_risks] and the whole analysis of
    [handle_request] return a value if and only if every task has a
    hashable ID, a status that is a string or a [bytes], a string
    deadline unless the status is a string equal to a done-synonym up
    to letter case, and a [depends_on] that is empty, a string, or a
    hashable value; on every other sequence they raise, both with the
    same exception. *)
Theorem analysis_returns_iff_well_typed now tasks :
  ((∃ r, analyze_cascading_risks now tasks = Ok r) ↔ Forall well_typed tasks) ∧
  ((∃ res, handle_request_analysis now tasks = Ok res) ↔
   Forall well_typed tasks) ∧
  (¬ Forall well_typed tasks →
   ∃ e, analyze_cascading_risks now tasks = Raise e ∧
        handle_request_analysis now tasks = Raise e).
Proof.
  split_and!.
  - split; [intros [r Hr]; by eapply returns_only_on_well_typed|].
    intros (g & sm & rm & bl & _ & Han & _)%(analysis_spec now). eauto.
  - split.
    + unfold handle_request_analysis.
      intros (res & (r & Hr & _)%bind_Ok_inv).
      by eapply returns_only_on_well_typed.
    + intros (res & _ & _ & _ & Hres & _)%(handle_request_analysis_spec now).
      eauto.
  - intros Hn. destruct (analyze_cascading_risks now tasks) as [r|e] eqn:E.
    + destruct Hn. by eapply returns_only_on_well_typed.
    + exists e. split; [done|]. unfold handle_request_analysis. by rewrite E.
Qed.

(** A [depends_on] that is a non-empty dict is hashed and raises
    [TypeError]; a status that is a [bytes] has a [lower] method, never
    equals a done-synonym, and the task is classified by its deadline. *)
Example scenario_dict_and_bytes :
  handle_request_analysis clock0
    [mk_task "X" "todo" "2030-01-01" PyNone;
     mk_task "Y" "todo" "2030-01-01" (PyDict [("id", PyStr "X")])] =
    Raise TypeError ∧
  (map a_risk ∘ analyzed_tasks) <$>
    handle_request_analysis clock0
      [<["task_status" := PyBytes "DONE"]>
         (mk_task "A" "todo" "2030-01-01" PyNone)] = Ok [LOW].
Proof. split; vm_compute; reflexivity. Qed.

(** ** Declarations written as a string *)

Lemma split_length sep s : length (split sep s) = S (count_char sep s).
Proof.
  induction s as [|c s IH]; [done|]. cbn [split count_char].
  destruct (Ascii.eqb c sep); simpl; [by rewrite IH|].
  destruct (split sep s); simpl in *; lia.
Qed.

Lemma split_no_sep sep s :
  Forall (λ x, count_char sep x = 0%nat) (split sep s).
Proof.
  induction s as [|c s IH]; cbn [split]; [by repeat constructor|].
  destruct (Ascii.eqb c sep) eqn:E; [by constructor|].
  destruct (split sep s) as [|piece rest].
  - repeat constructor. simpl. by rewrite E.
  - apply Forall_cons in IH as [Hp Hr]. constructor; [|done].
    simpl. by rewrite E, Hp.
Qed.

Lemma count_char_lstrip c s : (count_char c (lstrip s) ≤ count_char c s)%nat.
Proof.
  induction s as [|a s IH]; [done|]. cbn [lstrip].
  destruct (is_space a); [simpl; lia | done].
Qed.

Lemma count_char_rstrip c s : (count_char c (rstrip s) ≤ count_char c s)%nat.
Proof.
  induction s as [|a s IH]; [done|]. cbn [rstrip].
  destruct (rstrip s) as [|b r].
  - destruct (is_space a); simpl in *; lia.
  - cbn [count_char] in *. lia.
Qed.

Lemma rstrip_idemp s : rstrip (rstrip s) = rstrip s.
Proof.
  induction s as [|a s IH]; [done|]. cbn [rstrip].
  destruct (rstrip s) as [|b r] eqn:E.
  - destruct (is_space a) eqn:Ea; [done|]. simpl. by rewrite Ea.
  - cbn [rstrip] in *. by rewrite IH.
Qed.

Lemma lstrip_rstrip_lstrip s : lstrip (rstrip (lstrip s)) = rstrip (lstrip s).
Proof.
  induction s as [|a s IH]; [done|]. cbn [lstrip].
  destruct (is_space a) eqn:Ea; [done|]. cbn [rstrip].
  destruct (rstrip s) as [|b r]; rewrite ?Ea; cbn [lstrip]; by rewrite Ea.
Qed.

Lemma strip_idemp s : strip (strip s) = strip s.
Proof. unfold strip. by rewrite lstrip_rstrip_lstrip, rstrip_idemp. Qed.

Lemma filter_none {A} (P : A → Prop) `{∀ x, Decision (P x)} (l : list A) :
  (∀ x, x ∈ l → ¬ P x) → filter P l = [].
Proof.
  induction l as [|x l IH]; intros HP; [done|].
  rewrite filter_cons, decide_False by (apply HP; by left).
  apply IH. intros y ?. apply HP. by right.
Qed.

(** X13. A [depends_on] written as a non-empty string declares one
    ID per comma plus one; each declared ID is a string without comma
    and without blanks at either end.  So no declaration written in a
    string names an ID that contains a comma or starts or ends with a
    blank. *)
Theorem string_declarations (t : task) s :
  get t "depends_on" = PyStr s → s ≠ ""%string →
  length (declared t) = S (count_char "," s) ∧
  (∀ d, d ∈ declared t →
        ∃ x, d = PyStr x ∧ count_char "," x = 0%nat ∧ strip x = x) ∧
  (∀ id, count_char "," id ≠ 0%nat ∨ strip id ≠ id →
         declarations (KStr id) t = 0%nat).
Proof.
  intros Hs Hne.
  assert (declared t = map (λ d, PyStr (strip d)) (split "," s)) as Hd.
  { unfold declared. rewrite Hs. simpl.
    destruct (String.eqb_spec s ""); done. }
  assert (∀ d, d ∈ declared t →
            ∃ x, d = PyStr x ∧ count_char "," x = 0%nat ∧ strip x = x) as Hall.
  { intros d. rewrite Hd. intros (x & -> & Hx)%list_elem_of_fmap.
    exists (strip x). split_and!; [done| |apply strip_idemp].
    pose proof (split_no_sep "," s) as Hno.
    rewrite Forall_forall in Hno. specialize (Hno x Hx).
    pose proof (count_char_rstrip "," (lstrip x)).
    pose proof (count_char_lstrip "," x). unfold strip. lia. }
  split_and!; [|done|].
  - by rewrite Hd, length_map, split_length.
  - intros id Hid. unfold declarations.
    rewrite filter_none; [done|].
    intros d Hin Hk. apply Hall in Hin as (x & -> & Hc & Hst).
    unfold has_key in Hk. apply bool_decide_unpack in Hk.
    injection Hk as ->. by destruct Hid.
Qed.

Lemma string_declarations_witness :
  get (mk_task "C" "todo" "2030-01-01" (PyStr " A ,B, ")) "depends_on" =
    PyStr " A ,B, " ∧
  " A ,B, "%string ≠ ""%string ∧
  length (declared (mk_task "C" "todo" "2030-01-01" (PyStr " A ,B, "))) = 3%nat ∧
  declarations (KStr " A ") (mk_task "C" "todo" "2030-01-01" (PyStr " A ,B, ")) =
    0%nat.
Proof.
  assert (" A ,B, "%string ≠ ""%string) as Hne by discriminate.
  split; [reflexivity|]. split; [exact Hne|].
  destruct (string_declarations
              (mk_task "C" "todo" "2030-01-01" (PyStr " A ,B, ")) " A ,B, "
              eq_refl Hne) as (Hlen & _ & Hnone).
  split; [exact Hlen|].
  apply Hnone. right. discriminate.
Defined.

(** ** The records and the histogram *)

Lemma classify_Ok_cases now deadline status r days :
  calculate_risk_level now deadline status = Ok (r, days) →
  (r = COMPLETED ∧ days = 0) ∨ (r = UNKNOWN ∧ days = 0) ∨
  (r = CRITICAL ∧ days < 0) ∨ (r = HIGH ∧ days = 0) ∨
  (r = MEDIUM ∧ 1 ≤ days < 3) ∨ (r = LOW ∧ 3 ≤ days).
Proof.
  unfold calculate_risk_level.
  destruct status as [|s| | |b|]; try done; simpl;
    [destruct (is_done (lower s)); [intros [= <- <-]; auto|]|];
    (destruct deadline as [|d| | | |]; try done;
     destruct (strptime d) as [dl|]; [|intros [= <- <-]; auto];
     cbv zeta;
     destruct (Z.ltb_spec (sub_days dl now) 0); [intros [= <- <-]; auto|];
     destruct (Z.ltb_spec (sub_days dl now) 1);
       [intros [= <- <-]; do 3 right; left; split; [done|lia]|];
     destruct (Z.ltb_spec (sub_days dl now) 3); intros [= <- <-];
       [do 4 right; left; split; [done|lia] | do 5 right; split; [done|lia]]).
Qed.

Lemma analyze_tasks_counts now bl bn tasks counts counts' analyzed :
  analyze_tasks now bl bn tasks counts = Ok (counts', analyzed) →
  ∀ r, counts' r =
       (counts r + length (filter (λ a, a_risk a = r) analyzed))%nat.
Proof.
  revert counts counts' analyzed.
  induction tasks as [|t rest IH]; intros counts counts' analyzed.
  - intros [= <- <-] r. simpl. lia.
  - cbn [analyze_tasks].
    intros ([r0 days] & _ & ([c a] & Hrest & [= <- <-])%bind_Ok_inv)%bind_Ok_inv r.
    rewrite (IH _ _ _ Hrest r), filter_cons. unfold bump. simpl.
    destruct (decide (r = override (in_list (get t "task_id") bl) r0)) as [->|Hne].
    + rewrite decide_True by done. simpl. lia.
    + rewrite decide_False by congruence. lia.
Qed.

Lemma at_risk_count (l : list analyzed_task) :
  (length (filter (λ a, a_risk a = CRITICAL) l) +
   length (filter (λ a, a_risk a = HIGH) l) +
   length (filter (λ a, a_risk a = BLOCKED) l))%nat =
  length (filter (λ a, a_risk a ∈ [CRITICAL; HIGH; BLOCKED]) l).
Proof.
  induction l as [|a l IH]; [done|]. rewrite !filter_cons.
  destruct (a_risk a); repeat case_decide; simpl; try lia; try done;
    exfalso;
    repeat match goal with
    | H : _ ∈ _ :: _ |- _ => apply elem_of_cons in H as [H|H]; [discriminate H|]
    | H : _ ∈ [] |- _ => by apply elem_of_nil in H
    | H : ¬ _ ∈ _ |- _ => destruct H; by repeat constructor
    end.
Qed.

(** X14. Each counter of the histogram is the number of records of
    that tier, and the figure the report prints as "at risk" (the
    CRITICAL, HIGH and BLOCKED counters together) is the number of
    records of these three tiers. *)
Theorem histogram_counts_each_tier now tasks :
  Forall well_typed tasks →
  ∃ res,
    handle_request_analysis now tasks = Ok res ∧
    (∀ r, risk_counts res r =
          length (filter (λ a, a_risk a = r) (analyzed_tasks res))) ∧
    (risk_counts res CRITICAL + risk_counts res HIGH +
     risk_counts res BLOCKED)%nat =
      length (filter (λ a, a_risk a ∈ [CRITICAL; HIGH; BLOCKED])
                (analyzed_tasks res)).
Proof.
  intros Hwt.
  destruct (handle_request_analysis_spec now tasks Hwt)
    as (res & bl & bn & _ & Hres & _).
  assert (∀ r, risk_counts res r =
               length (filter (λ a, a_risk a = r) (analyzed_tasks res)))
    as Hcount.
  { revert Hres. unfold handle_request_analysis.
    intros ([bl' bn'] & _ & ([c a] & Hc & [= <-])%bind_Ok_inv)%bind_Ok_inv r.
    simpl. by rewrite (analyze_tasks_counts _ _ _ _ _ _ _ Hc r). }
  exists res. split_and!; [done..|].
  rewrite !Hcount. apply at_risk_count.
Qed.

Lemma histogram_counts_each_tier_witness :
  Forall well_typed tasks_ABC ∧
  ∃ res,
    handle_request_analysis clock0 tasks_ABC = Ok res ∧
    (∀ r, risk_counts res r =
          length (filter (λ a, a_risk a = r) (analyzed_tasks res))) ∧
    (risk_counts res CRITICAL + risk_counts res HIGH +
     risk_counts res BLOCKED)%nat =
      length (filter (λ a, a_risk a ∈ [CRITICAL; HIGH; BLOCKED])
                (analyzed_tasks res)).
Proof.
  assert (Forall well_typed tasks_ABC) as H by (repeat constructor).
  split; [exact H|].
  exact (histogram_counts_each_tier clock0 tasks_ABC H).
Defined.

(** X15. The text of the remaining time follows the intrinsic tier
    of the task: "OVERDUE by n day(s)" with n the days past for
    CRITICAL, "Due TODAY" for HIGH and also for COMPLETED and UNKNOWN,
    whose day count is zero, and "n day(s)" for MEDIUM and LOW. *)
Theorem time_text_follows_tier now tasks :
  Forall well_typed tasks →
  ∃ res,
    handle_request_analysis now tasks = Ok res ∧
    Forall2 (λ t a,
      ∃ r days,
        intrinsic now t = Ok (r, days) ∧ a_days_remaining a = days ∧
        (r = CRITICAL →
         days < 0 ∧
         a_time_text a = "OVERDUE by " +:+ pretty (- days) +:+ " day(s)") ∧
        (r = HIGH ∨ r = COMPLETED ∨ r = UNKNOWN →
         days = 0 ∧ a_time_text a = "Due TODAY"%string) ∧
        (r = MEDIUM ∨ r = LOW →
         0 < days ∧ a_time_text a = pretty days +:+ " day(s)"))
      tasks (analyzed_tasks res).
Proof.
  intros Hwt.
  destruct (handle_request_analysis_spec now tasks Hwt)
    as (res & bl & bn & _ & Hres & _ & _ & _ & Hall).
  exists res. split; [done|].
  eapply Forall2_impl; [exact Hall|].
  intros t a (r & days & Hr & ->). exists r, days.
  split; [done|]. split; [done|].
  unfold entry_of, format_time_remaining. simpl.
  apply classify_Ok_cases in Hr
    as [[-> ->]|[[-> ->]|[[-> ?]|[[-> ->]|[[-> ?]|[-> ?]]]]]];
    split_and!; try (intros; discriminate);
    try (intros [?|[?|?]]; discriminate); try (intros [?|?]; discriminate);
    intros _; try done.
  - split; [done|].
    rewrite (proj2 (Z.ltb_lt days 0)) by done.
    by rewrite Z.abs_neq by lia.
  - split; [lia|].
    rewrite (proj2 (Z.ltb_ge days 0)), (proj2 (Z.eqb_neq days 0)) by lia. done.
  - split; [lia|].
    rewrite (proj2 (Z.ltb_ge days 0)), (proj2 (Z.eqb_neq days 0)) by lia. done.
Qed.

Lemma time_text_follows_tier_witness :
  Forall well_typed tasks_ABC ∧
  ∃ res,
    handle_request_analysis clock0 tasks_ABC = Ok res ∧
    Forall2 (λ t a,
      ∃ r days,
        intrinsic clock0 t = Ok (r, days) ∧ a_days_remaining a = days ∧
        (r = CRITICAL →
         days < 0 ∧
         a_time_text a = "OVERDUE by " +:+ pretty (- days) +:+ " day(s)") ∧
        (r = HIGH ∨ r = COMPLETED ∨ r = UNKNOWN →
         days = 0 ∧ a_time_text a = "Due TODAY"%string) ∧
        (r = MEDIUM ∨ r = LOW →
         0 < days ∧ a_time_text a = pretty days +:+ " day(s)"))
      tasks_ABC (analyzed_tasks res).
Proof.
  assert (Forall well_typed tasks_ABC) as H by (repeat constructor).
  split; [exact H|].
  exact (time_text_follows_tier clock0 tasks_ABC H).
Defined.

Lemma Forall2_with_elem {A B} (P : A → B → Prop) (l : list A) (k : list B) :
  Forall2 P l k → Forall2 (λ x y, x ∈ l ∧ P x y) l k.
Proof.
  intros H.
  assert (∀ l0, Forall2 P l0 k → (∀ x, x ∈ l0 → x ∈ l) →
                Forall2 (λ x y, x ∈ l ∧ P x y) l0 k) as Hgen.
  { clear H. intros l0 H. induction H as [|x y l0 k0 Hxy _ IH]; intros Hsub.
    - constructor.
    - constructor; [split; [apply Hsub; by left | done]|].
      apply IH. intros z ?. apply Hsub. by right. }
  by apply Hgen.
Qed.

Lemma in_list_true v (l : list key) :
  in_list v l = true ↔ ∃ k, to_key v = Some k ∧ k ∈ l.
Proof.
  unfold in_list. destruct (to_key v) as [k|].
  - rewrite bool_decide_eq_true. split; [by exists k|].
    by intros (k' & [= <-] & ?).
  - split; [done | by intros (? & ? & _)].
Qed.

(** X16. The result has one record per task, in the order of the
    tasks, carrying the ID, the name and the deadline as the task has
    them; the record is flagged as a bottleneck if and only if the
    dependency fields of the sequence, as the specification reads
    them, name the ID of the task more than once in all. *)
Theorem records_follow_tasks now tasks :
  Forall well_typed tasks →
  ∃ res,
    handle_request_analysis now tasks = Ok res ∧
    Forall2 (λ t a,
      a_id a = task_id t ∧ a_name a = get t "task_name" ∧
      a_deadline a = get t "task_deadline" ∧
      (a_is_bottleneck a = true ↔
       ∃ k, to_key (task_id t) = Some k ∧
            (1 < sum_list_with (mentions k) tasks)%nat))
      tasks (analyzed_tasks res).
Proof.
  intros Hwt.
  destruct (handle_request_analysis_spec now tasks Hwt)
    as (res & bl & bn & Han & Hres & _ & _ & _ & Hall).
  destruct (analysis_spec now tasks Hwt)
    as (g & sm & rm & bl' & _ & Han' & Hnd & Hg & _).
  rewrite Han in Han'. injection Han' as -> ->.
  exists res. split; [done|].
  eapply Forall2_impl; [apply Forall2_with_elem, Hall|].
  intros t a (Hin & r & days & _ & ->). simpl. split_and!; [done..|].
  rewrite in_list_true. split.
  - intros (k & Hk & (l & Hl & Hlen)%find_bottlenecks_spec). exists k.
    split; [done|]. apply dict_get_elem_of in Hl; [|done].
    rewrite Hg in Hl. destruct (resolve tasks k); [|done].
    injection Hl as <-. by rewrite <- length_edges_to_mentions.
  - intros (k & Hk & Hlen). exists k. split; [done|].
    apply find_bottlenecks_spec. exists (edges_to k tasks).
    split; [|by rewrite length_edges_to_mentions].
    apply dict_get_elem_of; [done|]. rewrite Hg.
    by destruct (resolve_is_Some tasks k t Hin Hk) as [p ->].
Qed.

Lemma records_follow_tasks_witness :
  Forall well_typed tasks_ABC ∧
  ∃ res,
    handle_request_analysis clock0 tasks_ABC = Ok res ∧
    map a_id (analyzed_tasks res) = [PyStr "A"; PyStr "B"; PyStr "C"] ∧
    map a_is_bottleneck (analyzed_tasks res) = [true; false; false].
Proof.
  assert (Forall well_typed tasks_ABC) as H by (repeat constructor).
  split; [exact H|].
  destruct (records_follow_tasks clock0 tasks_ABC H) as (res & Hres & Hall).
  exists res. split; [exact Hres|].
  unfold tasks_ABC in Hall.
  apply Forall2_cons_inv_l in Hall
    as (a & l1 & (Ha1 & _ & _ & Ha2) & Hall & ->).
  apply Forall2_cons_inv_l in Hall
    as (b & l2 & (Hb1 & _ & _ & Hb2) & Hall & ->).
  apply Forall2_cons_inv_l in Hall
    as (c & l3 & (Hc1 & _ & _ & Hc2) & Hall & ->).
  apply Forall2_nil_inv_l in Hall as ->.
  split.
  - cbn [map]. rewrite Ha1, Hb1, Hc1. reflexivity.
  - cbn [map]. f_equal; [|f_equal; [|f_equal]].
    + apply Ha2. exists (KStr "A"). split; [reflexivity|]. apply le_n.
    + destruct (a_is_bottleneck b); [|reflexivity].
      destruct Hb2 as [Hb2 _].
      destruct (Hb2 eq_refl) as (k & [= <-] & Hk).
      vm_compute in Hk. by apply Nat.nle_succ_0 in Hk.
    + destruct (a_is_bottleneck c); [|reflexivity].
      destruct Hc2 as [Hc2 _].
      destruct (Hc2 eq_refl) as (k & [= <-] & Hk).
      vm_compute in Hk. by apply Nat.nle_succ_0 in Hk.
Defined.

(** X17. BLOCKED enters the result through the override only: a
    record has the tier BLOCKED if and only if the intrinsic tier of
    its task is neither CRITICAL nor COMPLETED and some task carrying
    the same ID names, in its dependency field as the specification
    reads it, a predecessor whose ID resolves to a task of intrinsic
    tier CRITICAL or HIGH.  Every other record keeps the intrinsic
    tier. *)
Theorem blocked_only_by_override now tasks :
  Forall well_typed tasks →
  ∃ res,
    handle_request_analysis now tasks = Ok res ∧
    Forall2 (λ t a,
      ∃ r days,
        intrinsic now t = Ok (r, days) ∧
        (a_risk a = BLOCKED ↔
         r ≠ CRITICAL ∧ r ≠ COMPLETED ∧
         ∃ k t' d kd p rp,
           to_key (task_id t) = Some k ∧
           t' ∈ tasks ∧ to_key (task_id t') = Some k ∧
           d ∈ named t' ∧ to_key d = Some kd ∧
           resolve tasks kd = Some p ∧ intrinsic_risk now p = Some rp ∧
           (rp = CRITICAL ∨ rp = HIGH)) ∧
        (a_risk a ≠ BLOCKED → a_risk a = r))
      tasks (analyzed_tasks res).
Proof.
  intros Hwt.
  destruct (handle_request_analysis_spec now tasks Hwt)
    as (res & bl & bn & Han & Hres & _ & _ & _ & Hall).
  destruct (analysis_spec now tasks Hwt)
    as (g & sm & rm & bl' & _ & Han' & _ & _ & Hrm & Hbl).
  rewrite Han in Han'. injection Han' as <- ->.
  exists res. split; [done|].
  rewrite Forall_forall in Hwt.
  eapply Forall2_impl; [exact Hall|].
  intros t a (r & days & Hr & ->). exists r, days. split; [done|].
  assert (r ≠ BLOCKED) as Hnb.
  { apply classify_Ok_cases in Hr
      as [[-> _]|[[-> _]|[[-> _]|[[-> _]|[[-> _]|[-> _]]]]]]; done. }
  assert (in_list (task_id t) bl = true ↔
          ∃ k t' d kd p rp,
            to_key (task_id t) = Some k ∧
            t' ∈ tasks ∧ to_key (task_id t') = Some k ∧
            d ∈ named t' ∧ to_key d = Some kd ∧
            resolve tasks kd = Some p ∧ intrinsic_risk now p = Some rp ∧
            (rp = CRITICAL ∨ rp = HIGH)) as Hin.
  { rewrite in_list_true. split.
    - intros (k & Hk & (t' & d & kd & Ht' & ? & Hd & ? & Hc)%Hbl).
      apply (critical_or_high_resolve now tasks) in Hc
        as (p & rp & ? & ? & ?); [|done].
      rewrite (well_typed_named t' (Hwt t' Ht')) in Hd.
      by exists k, t', d, kd, p, rp.
    - intros (k & t' & d & kd & p & rp & ? & Ht' & ? & Hd & ? & ? & ? & ?).
      rewrite <- (well_typed_named t' (Hwt t' Ht')) in Hd.
      exists k. split; [done|]. apply Hbl. exists t', d, kd.
      split_and!; [done..|].
      apply (critical_or_high_resolve now tasks); [done|]. by exists p, rp. }
  unfold entry_of, override. simpl.
  destruct (in_list (task_id t) bl) eqn:E; simpl.
  - destruct Hin as [Hin _]. specialize (Hin eq_refl).
    destruct r; simpl; (split; [split; [intros ?; try done; by split_and!
                                       |by intros (? & ? & _)]
                               |done]).
  - split; [|done]. split; [done|].
    intros (_ & _ & H). apply Hin in H. done.
Qed.

Lemma blocked_only_by_override_witness :
  Forall well_typed tasks_chain ∧
  ∃ res,
    handle_request_analysis clock0 tasks_chain = Ok res ∧
    map a_risk (analyzed_tasks res) = [CRITICAL; BLOCKED; LOW].
Proof.
  assert (Forall well_typed tasks_chain) as H by (repeat constructor).
  split; [exact H|].
  destruct (blocked_only_by_override clock0 tasks_chain H)
    as (res & Hres & Hall).
  exists res. split; [exact Hres|].
  assert (named (mk_task "1" "todo" "2020-01-01" PyNone) = []) as H1
    by reflexivity.
  assert (named (mk_task "2" "todo" "2099-01-01" (PyStr "1")) = [PyStr "1"])
    as H2 by reflexivity.
  assert (named (mk_task "3" "todo" "2099-01-01" (PyStr "2")) = [PyStr "2"])
    as H3 by reflexivity.
  unfold tasks_chain in Hall.
  apply Forall2_cons_inv_l in Hall
    as (a & l1 & (ra & da & Hra & Ha & Ha') & Hall & ->).
  apply Forall2_cons_inv_l in Hall
    as (b & l2 & (rb & db & Hrb & Hb & _) & Hall & ->).
  apply Forall2_cons_inv_l in Hall
    as (c & l3 & (rc & dc & Hrc & Hc & Hc') & Hall & ->).
  apply Forall2_nil_inv_l in Hall as ->.
  assert (ra = CRITICAL) as -> by (vm_compute in Hra; congruence).
  assert (rb = LOW) as -> by (vm_compute in Hrb; congruence).
  assert (rc = LOW) as -> by (vm_compute in Hrc; congruence).
  cbn [map]. f_equal; [|f_equal; [|f_equal]].
  - apply Ha'. intros Hbl. apply Ha in Hbl as [Hbl _]. by destruct Hbl.
  - apply Hb. split; [discriminate|]. split; [discriminate|].
    exists (KStr "2"), (mk_task "2" "todo" "2099-01-01" (PyStr "1")),
      (PyStr "1"), (KStr "1"), (mk_task "1" "todo" "2020-01-01" PyNone),
      CRITICAL.
    split_and!; [reflexivity | | reflexivity | | reflexivity | reflexivity
                 | reflexivity | by left].
    + apply elem_of_cons. right. apply elem_of_cons. by left.
    + rewrite H2. apply elem_of_cons. by left.
  - apply Hc'. intros Hbl.
    apply Hc in Hbl as (_ & _ & k & t' & d & kd & p & rp &
                        Hk & Ht' & Hk' & Hd & Hkd & Hp & Hrp & Hcase).
    injection Hk as <-.
    apply elem_of_cons in Ht' as [->|Ht']; [discriminate Hk'|].
    apply elem_of_cons in Ht' as [->|Ht']; [discriminate Hk'|].
    apply elem_of_cons in Ht' as [->|Ht']; [|by apply elem_of_nil in Ht'].
    rewrite H3 in Hd. apply elem_of_cons in Hd as [->|Hd];
      [|by apply elem_of_nil in Hd].
    injection Hkd as <-. vm_compute in Hp. injection Hp as <-.
    vm_compute in Hrp. injection Hrp as <-.
    destruct Hcase as [Hcase|Hcase]; discriminate Hcase.
Defined.

(** ** The text of the remaining time *)

Lemma pretty_N_char_digit x : is_Some (digit (pretty_N_char x)).
Proof. unfold pretty_N_char. repeat case_match; vm_compute; eauto. Qed.

Lemma pretty_N_go_head x s :
  (∃ c r, s = String c r ∧ is_Some (digit c)) →
  ∃ c r, pretty_N_go x s = String c r ∧ is_Some (digit c).
Proof.
  revert s. induction (N.lt_wf_0 x) as [x _ IH]; intros s Hs.
  destruct (decide (x = 0)%N) as [->|Hx]; [by rewrite pretty_N_go_0|].
  rewrite pretty_N_go_step by lia. apply IH.
  - apply N.div_lt; lia.
  - eexists _, _. split; [done|]. apply pretty_N_char_digit.
Qed.

Lemma pretty_Z_pos_head z :
  0 < z → ∃ c r, pretty z = String c r ∧ is_Some (digit c).
Proof.
  destruct z as [|p|p]; try lia. intros _.
  change (pretty (Z.pos p)) with (pretty (N.pos p)).
  unfold pretty, pretty_N. rewrite decide_False by done.
  rewrite pretty_N_go_step by lia. apply pretty_N_go_head.
  eexists _, _. split; [done|]. apply pretty_N_char_digit.
Qed.

Lemma string_length_app (a b : string) :
  String.length (a +:+ b) = (String.length a + String.length b)%nat.
Proof. induction a as [|c a IH]; simpl; [done|]. by rewrite IH. Qed.

Lemma string_app_inv_tail (a b s : string) : a +:+ s = b +:+ s → a = b.
Proof.
  revert b. induction a as [|c a IH]; intros [|c' b]; simpl; intros H.
  - done.
  - apply (f_equal String.length) in H.
    rewrite !string_length_app in H. simpl in H. lia.
  - apply (f_equal String.length) in H.
    rewrite !string_length_app in H. simpl in H. lia.
  - injection H as -> H. by rewrite (IH b H).
Qed.

(** X18. The text of the remaining time tells the day count: two
    different counts never give the same text. *)
Theorem time_text_tells_days a b :
  a ≠ b → format_time_remaining a ≠ format_time_remaining b.
Proof.
  intros Hne Heq. apply Hne. clear Hne. revert Heq.
  unfold format_time_remaining.
  destruct (Z.ltb_spec a 0) as [Ha|Ha], (Z.ltb_spec b 0) as [Hb|Hb].
  - intros H. apply (inj (String.append "OVERDUE by ")) in H.
    apply string_app_inv_tail, (inj pretty) in H. lia.
  - destruct (Z.eqb_spec b 0) as [->|Hb0]; [done|].
    destruct (pretty_Z_pos_head b) as (c & r & -> & [v Hc]); [lia|].
    simpl. intros [= <- _]. by vm_compute in Hc.
  - destruct (Z.eqb_spec a 0) as [->|Ha0]; [done|].
    destruct (pretty_Z_pos_head a) as (c & r & -> & [v Hc]); [lia|].
    simpl. intros [= -> _]. by vm_compute in Hc.
  - destruct (Z.eqb_spec a 0) as [->|Ha0], (Z.eqb_spec b 0) as [->|Hb0].
    + done.
    + destruct (pretty_Z_pos_head b) as (c & r & -> & [v Hc]); [lia|].
      simpl. intros [= <- _]. by vm_compute in Hc.
    + destruct (pretty_Z_pos_head a) as (c & r & -> & [v Hc]); [lia|].
      simpl. intros [= -> _]. by vm_compute in Hc.
    + intros H. by apply string_app_inv_tail, (inj pretty) in H.
Qed.

Lemma time_text_tells_days_witness :
  (-1) ≠ 1 ∧ format_time_remaining (-1) ≠ format_time_remaining 1.
Proof.
  assert ((-1) ≠ 1) as H by discriminate.
  split; [exact H|]. exact (time_text_tells_days (-1) 1 H).
Defined.
